(** * The streaming chat session of the NL-to-SQL agent front end

    A shallow embedding of
    - [services/types.ts]            (events, steps, turns, the chat state),
    - [context/ChatContext.tsx]      (the reducer and the provider's operations),
    - [hooks/useChatController.ts]   (event dispatch, [sendMessage] and its
                                      decode loop, [stopStreaming]),
    - [components/Chat/MessageInput.tsx] (the submit guard),
    - [services/eventSource.ts]      ([StreamingService]: the reconnection
                                      policy, the event listeners, opening
                                      and closing the stream),
    - [hooks/useStreamingChat.ts]    (the controller built on that service:
                                      its status callback, event dispatch,
                                      [sendMessage] and [stopStreaming]),
    followed by the properties of the state-transition contract. *)

From Stdlib Require Import String Ascii List ZArith QArith Bool Lia.
From Stdlib Require Import DecimalString.
Import ListNotations.
Local Open Scope string_scope.
Local Open Scope Z_scope.

(* ================================================================== *)
(** * services/types.ts *)
(* ================================================================== *)

Module Category.
Inductive t := schema_exploration | data_retrieval | validation | unknown.
End Category.

Module ResultType.
Inductive t :=
  table_list | schema_info | sql_result | tabular_data
| validation_result | text | empty.
End ResultType.

(** [AgentActionEvent['action']] *)
Record Action := {
  tool : string;
  category : Category.t;
  description : string;
  purpose : string;
  input : string;
  raw_input : string
}.

(** [AgentObservationEvent['observation']] *)
Record Observation := {
  result : string;
  result_type : ResultType.t;
  success : bool
}.

(** [ReActStep]; an optional field ([thought?], [observation?]) is an
    [option].  [step_number] is a JSON number; the protocol sends
    integers. *)
Record ReActStep := {
  step_number : Z;
  thought : option string;
  action : Action;
  observation : option Observation;
  timestamp : string
}.

Module Status.
Inductive t := thinking | processing | completed | error.

Definition eqb (a b : t) : bool :=
  match a, b with
  | thinking, thinking | processing, processing
  | completed, completed | error, error => true
  | _, _ => false
  end.
End Status.

(** [ChatMessage]: one turn. *)
Record ChatMessage := {
  id : string;
  question : string;
  answer : option string;
  steps : list ReActStep;
  status : Status.t;
  execution_time : option Q;
  msg_timestamp : string;
  error_message : option string
}.

(** [ChatState] *)
Record ChatState := {
  messages : list ChatMessage;
  currentMessage : option ChatMessage;
  isStreaming : bool;
  error : option string
}.

(** [ChatStreamEvent]: the tagged union, switched on its [type] string.
    [error_event] carries both the top-level [message] member (read by
    the fetch-based controller; absent from a producer that only sends
    the nested record) and the nested [error: {message, type}] record.
    [unknown_event] stands for a parsed value whose [type] is none of
    the known tags. *)
Inductive ChatStreamEvent :=
| execution_start (ts question query_id : string)
| agent_action (ts : string) (step_number : Z) (thought : option string)
               (action : Action)
| agent_observation (ts : string) (step_number : Z) (observation : Observation)
| agent_finish (ts : string) (final_answer : string) (total_steps : Z)
| execution_summary (ts : string) (execution_time : Q) (success : bool)
| execution_complete (ts : string)
| heartbeat (ts : string)
| error_event (ts : string) (message : option string)
              (error_message error_type : string)
| unknown_event (type : string).

Module ConnectionStatus.
Inductive t := disconnected | connecting | connected | error.
End ConnectionStatus.

(* ================================================================== *)
(** * JavaScript string helpers used by the sources *)
(* ================================================================== *)

(** A string is truthy iff it is not empty. *)
Definition truthy (s : string) : bool :=
  match s with
  | EmptyString => false
  | String _ _ => true
  end.

(** [a || b] on an optional string: [undefined] and [""] are falsy. *)
Definition or_default (a : option string) (b : string) : string :=
  match a with
  | Some s => if truthy s then s else b
  | None => b
  end.

Definition nl : ascii := ascii_of_nat 10.

(** A [string] is a text in UTF-8, one [ascii] per byte.  The operations
    the sources apply to their strings cut such a text where they cut the
    JavaScript string: the separator of [split] and the marker of
    [startsWith] are ASCII, [substring(5)] is applied behind that marker
    only, and [trim] removes whole characters.

    White space as [String.prototype.trim] knows it (the WhiteSpace and
    LineTerminator characters of the language).  One byte:
    U+0009..U+000D (TAB, LF, VT, FF, CR) and U+0020 (SPACE). *)
Definition is_white_space (c : ascii) : bool :=
  let n := nat_of_ascii c in
  ((9 <=? n) && (n <=? 13))%nat || (n =? 32)%nat.

(** Two bytes: U+00A0 (NO-BREAK SPACE), C2 A0. *)
Definition is_white_space2 (c1 c2 : ascii) : bool :=
  ((nat_of_ascii c1 =? 194) && (nat_of_ascii c2 =? 160))%nat.

(** Three bytes: U+1680 (E1 9A 80); U+2000..U+200A, U+2028, U+2029 and
    U+202F (E2 80 80..8A, A8, A9, AF); U+205F (E2 81 9F); U+3000
    (E3 80 80); U+FEFF (EF BB BF). *)
Definition is_white_space3 (c1 c2 c3 : ascii) : bool :=
  let a := nat_of_ascii c1 in
  let b := nat_of_ascii c2 in
  let c := nat_of_ascii c3 in
  ((a =? 225) && (b =? 154) && (c =? 128)
   || (a =? 226) && (b =? 128)
      && ((128 <=? c) && (c <=? 138) || (c =? 168) || (c =? 169) || (c =? 175))
   || (a =? 226) && (b =? 129) && (c =? 159)
   || (a =? 227) && (b =? 128) && (c =? 128)
   || (a =? 239) && (b =? 187) && (c =? 191))%nat.

(** The text after one leading white space character, if there is one. *)
Definition strip_white_space (s : string) : option string :=
  match s with
  | EmptyString => None
  | String c1 s1 =>
      if is_white_space c1 then Some s1
      else match s1 with
           | EmptyString => None
           | String c2 s2 =>
               if is_white_space2 c1 c2 then Some s2
               else match s2 with
                    | EmptyString => None
                    | String c3 s3 =>
                        if is_white_space3 c1 c2 c3 then Some s3 else None
                    end
           end
  end.

(** [s.trimStart()] *)
Fixpoint trimStart (s : string) : string :=
  match s with
  | EmptyString => EmptyString
  | String c1 s1 =>
      if is_white_space c1 then trimStart s1
      else match s1 with
           | EmptyString => s
           | String c2 s2 =>
               if is_white_space2 c1 c2 then trimStart s2
               else match s2 with
                    | EmptyString => s
                    | String c3 s3 =>
                        if is_white_space3 c1 c2 c3 then trimStart s3 else s
                    end
           end
  end.

(** A text of white space only (the empty text included). *)
Fixpoint all_white_space (s : string) : bool :=
  match s with
  | EmptyString => true
  | String c1 s1 =>
      if is_white_space c1 then all_white_space s1
      else match s1 with
           | EmptyString => false
           | String c2 s2 =>
               if is_white_space2 c1 c2 then all_white_space s2
               else match s2 with
                    | EmptyString => false
                    | String c3 s3 =>
                        if is_white_space3 c1 c2 c3 then all_white_space s3
                        else false
                    end
           end
  end.

(** [s.trimEnd()]: the text up to where only white space follows. *)
Fixpoint trimEnd (s : string) : string :=
  match s with
  | EmptyString => EmptyString
  | String c s' =>
      if all_white_space s then EmptyString else String c (trimEnd s')
  end.

Definition trim (s : string) : string := trimEnd (trimStart s).

(** [s.substring(n)] *)
Fixpoint substring_from (n : nat) (s : string) : string :=
  match n, s with
  | O, _ => s
  | S n', String _ s' => substring_from n' s'
  | S _, EmptyString => EmptyString
  end.

(** [s.startsWith(p)] *)
Definition startsWith (s p : string) : bool := String.prefix p s.

(** Decimal rendering of an integer inside a template string. *)
Definition toString (z : Z) : string := NilZero.string_of_int (Z.to_int z).

(* ================================================================== *)
(** * context/ChatContext.tsx *)
(* ================================================================== *)

Definition initialState : ChatState := {|
  messages := [];
  currentMessage := None;
  isStreaming := false;
  error := None
|}.

(** [ChatAction].  The reducer reads the clock in [START_STREAMING]
    ([new Date().toISOString()]); the reading is carried as [now]. *)
Inductive ChatAction :=
| START_STREAMING (question messageId now : string)
| STOP_STREAMING
| ADD_STEP (step : ReActStep)
| UPDATE_STEP (stepNumber : Z) (observation : Observation)
| SET_FINAL_ANSWER (answer : string) (totalSteps : Z)
                   (executionTime : option Q)
| SET_ERROR (error : string)
| CLEAR_ERROR
| CLEAR_MESSAGES
| COMPLETE_MESSAGE.

(** The arrow function mapped over the steps in [UPDATE_STEP]. *)
Definition update_observation (stepNumber : Z) (obs : Observation)
    (step : ReActStep) : ReActStep :=
  if step_number step =? stepNumber then
    {| step_number := step_number step;
       thought := thought step;
       action := action step;
       observation := Some obs;
       timestamp := timestamp step |}
  else step.

Definition chatReducer (state : ChatState) (a : ChatAction) : ChatState :=
  match a with
  | START_STREAMING q messageId now =>
      let newMessage := {|
        id := messageId;
        question := q;
        answer := None;
        steps := [];
        status := Status.thinking;
        execution_time := None;
        msg_timestamp := now;
        error_message := None |} in
      {| messages := messages state;
         currentMessage := Some newMessage;
         isStreaming := true;
         error := None |}
  | STOP_STREAMING =>
      {| messages := messages state;
         currentMessage := currentMessage state;
         isStreaming := false;
         error := error state |}
  | ADD_STEP step =>
      match currentMessage state with
      | None => state
      | Some cur =>
          let updatedMessage := {|
            id := id cur;
            question := question cur;
            answer := answer cur;
            steps := steps cur ++ [step];
            status := Status.processing;
            execution_time := execution_time cur;
            msg_timestamp := msg_timestamp cur;
            error_message := error_message cur |} in
          {| messages := messages state;
             currentMessage := Some updatedMessage;
             isStreaming := isStreaming state;
             error := error state |}
      end
  | UPDATE_STEP stepNumber obs =>
      match currentMessage state with
      | None => state
      | Some cur =>
          let updatedSteps := map (update_observation stepNumber obs) (steps cur) in
          let updatedMessage := {|
            id := id cur;
            question := question cur;
            answer := answer cur;
            steps := updatedSteps;
            status := status cur;
            execution_time := execution_time cur;
            msg_timestamp := msg_timestamp cur;
            error_message := error_message cur |} in
          {| messages := messages state;
             currentMessage := Some updatedMessage;
             isStreaming := isStreaming state;
             error := error state |}
      end
  | SET_FINAL_ANSWER ans _totalSteps executionTime =>
      match currentMessage state with
      | None => state
      | Some cur =>
          let completedMessage := {|
            id := id cur;
            question := question cur;
            answer := Some ans;
            steps := steps cur;
            status := Status.completed;
            execution_time := executionTime;
            msg_timestamp := msg_timestamp cur;
            error_message := error_message cur |} in
          {| messages := messages state ++ [completedMessage];
             currentMessage := Some completedMessage;
             isStreaming := false;
             error := error state |}
      end
  | SET_ERROR err =>
      let updatedMessage :=
        match currentMessage state with
        | Some cur => Some {|
            id := id cur;
            question := question cur;
            answer := answer cur;
            steps := steps cur;
            status := Status.error;
            execution_time := execution_time cur;
            msg_timestamp := msg_timestamp cur;
            error_message := Some err |}
        | None => None
        end in
      {| messages := match updatedMessage with
                     | Some m => messages state ++ [m]
                     | None => messages state
                     end;
         currentMessage := updatedMessage;
         isStreaming := false;
         error := Some err |}
  | CLEAR_ERROR =>
      {| messages := messages state;
         currentMessage := currentMessage state;
         isStreaming := isStreaming state;
         error := None |}
  | CLEAR_MESSAGES => initialState
  | COMPLETE_MESSAGE =>
      match currentMessage state with
      | None => state
      | Some _ =>
          {| messages := messages state;
             currentMessage := None;
             isStreaming := false;
             error := error state |}
      end
  end.

(** The provider's [internalFunctions]: each one dispatches one action. *)
Definition startStreaming (s : ChatState) (q messageId now : string) : ChatState :=
  chatReducer s (START_STREAMING q messageId now).
Definition addStep (s : ChatState) (step : ReActStep) : ChatState :=
  chatReducer s (ADD_STEP step).
Definition updateStep (s : ChatState) (stepNumber : Z) (obs : Observation)
    : ChatState :=
  chatReducer s (UPDATE_STEP stepNumber obs).
Definition setFinalAnswer (s : ChatState) (ans : string) (totalSteps : Z)
    (executionTime : option Q) : ChatState :=
  chatReducer s (SET_FINAL_ANSWER ans totalSteps executionTime).
Definition setError (s : ChatState) (err : string) : ChatState :=
  chatReducer s (SET_ERROR err).
Definition clearError (s : ChatState) : ChatState :=
  chatReducer s CLEAR_ERROR.
Definition completeMessage (s : ChatState) : ChatState :=
  chatReducer s COMPLETE_MESSAGE.

(** [clearMessages] of the provider. *)
Definition clearMessages (s : ChatState) : ChatState :=
  chatReducer s CLEAR_MESSAGES.

(** The provider keeps the controller's handlers in two refs
    ([sendMessageRef], [stopStreamingRef]), empty until a controller
    registers.  A handler is the state change its call causes. *)
Module ChatProvider.

Definition handler := ChatState -> ChatState.

(** [sendMessage]: forwards to the registered handler; without one it
    only warns. *)
Definition sendMessage (sendMessageRef : option (string -> handler))
    (q : string) (s : ChatState) : ChatState :=
  match sendMessageRef with
  | Some h => h q s
  | None => s
  end.

(** [stopStreaming]: calls the registered handler, if any, and then
    dispatches [STOP_STREAMING]. *)
Definition stopStreaming (stopStreamingRef : option handler)
    (s : ChatState) : ChatState :=
  let s' := match stopStreamingRef with
            | Some h => h s
            | None => s
            end in
  chatReducer s' STOP_STREAMING.

End ChatProvider.

(* ================================================================== *)
(** * hooks/useChatController.ts *)
(* ================================================================== *)

(** [accumulatedData.split('\n\n')]: the pieces between successive,
    non-overlapping blank-line separators found from the left; never
    empty. *)
Definition cons_head (c : ascii) (pieces : list string) : list string :=
  match pieces with
  | [] => [String c EmptyString]
  | p :: ps => String c p :: ps
  end.

Fixpoint split_blank_line (s : string) : list string :=
  match s with
  | EmptyString => [EmptyString]
  | String c s' =>
      match s' with
      | EmptyString => [String c EmptyString]
      | String c' s'' =>
          if Ascii.eqb c nl && Ascii.eqb c' nl
          then EmptyString :: split_blank_line s''
          else cons_head c (split_blank_line s')
      end
  end.

(** What the [fetch] of [sendMessage] and the reads of the body deliver. *)
Inductive ReadEnd :=
| read_done                            (* [done] is true *)
| read_throws (message : option string) (* a read rejects; [Some] for an [Error] *).

Inductive FetchOutcome :=
| fetch_throws (message : option string) (* the request rejects *)
| fetch_not_ok (http_status : Z)          (* [!response.ok || !response.body] *)
| fetch_body (chunks : list string) (e : ReadEnd).

(** The values [sendMessage] takes from its environment: the generated
    message id, the clock at [START_STREAMING], the outcome of the
    request and the clock in the [catch] block. *)
Record Env := {
  messageId : string;
  now : string;
  outcome : FetchOutcome;
  catch_now : string
}.

Module useChatController.

(** [handleStreamEvent] *)
Definition handleStreamEvent (s : ChatState) (event : ChatStreamEvent)
    : ChatState :=
  match event with
  | execution_start _ _ _ => clearError s
  | agent_action ts n th act =>
      addStep s {| step_number := n; thought := th; action := act;
                   observation := None; timestamp := ts |}
  | agent_observation _ n obs => updateStep s n obs
  | agent_finish _ final_answer total_steps =>
      setFinalAnswer s final_answer total_steps None
  | execution_summary _ _ _ => s
  | execution_complete _ => completeMessage s
  | heartbeat _ => s
  | error_event _ message _ _ =>
      setError s (or_default message "An error occurred during processing")
  | unknown_event _ => s
  end.

(** [error instanceof Error ? error.message : 'Failed to connect to the server'] *)
Definition errorMessage (thrown : option string) : string :=
  match thrown with
  | Some m => m
  | None => "Failed to connect to the server"
  end.

(** The [catch] block of [sendMessage]. *)
Definition on_catch (s : ChatState) (thrown : option string) (at_ : string)
    : ChatState :=
  let m := errorMessage thrown in
  handleStreamEvent s (error_event at_ (Some m) m "unknown").

Section Decoder.

(** [JSON.parse] followed by the read of [event.type] at the head of
    [handleStreamEvent]: [None] when either throws (both are inside
    the [try]), otherwise the event. *)
Variable JSON_parse : string -> option ChatStreamEvent.

(** The body of [for (const eventString of events)]. *)
Definition processRecord (s : ChatState) (eventString : string)
    : ChatState :=
  if startsWith eventString "data:" then
    let jsonString := trim (substring_from 5 eventString) in
    match JSON_parse jsonString with
    | Some eventData => handleStreamEvent s eventData
    | None => s
    end
  else s.

(** One turn of [while (true)] with [done] false: the loop state is
    [accumulatedData] and the chat state. *)
Definition processChunk (st : string * ChatState) (value : string)
    : string * ChatState :=
  let accumulatedData := fst st ++ value in
  let events := split_blank_line accumulatedData in
  (last events "", fold_left processRecord (removelast events) (snd st)).

Definition readLoop (st : string * ChatState) (chunks : list string)
    : string * ChatState :=
  fold_left processChunk chunks st.

(** [sendMessage] up to its first [await]. *)
Definition sendMessage_begin (q messageId now : string) (s : ChatState)
    : ChatState :=
  if truthy (trim q) then startStreaming s q messageId now
  else setError s "Question cannot be empty".

(** [sendMessage] run to completion. *)
Definition sendMessage (env : Env) (q : string) (s : ChatState)
    : ChatState :=
  if truthy (trim q) then
    let s1 := startStreaming s q (messageId env) (now env) in
    match outcome env with
    | fetch_throws m => on_catch s1 m (catch_now env)
    | fetch_not_ok st =>
        on_catch s1 (Some ("HTTP error! status: " ++ toString st))
                 (catch_now env)
    | fetch_body chunks e =>
        let s2 := snd (readLoop ("", s1) chunks) in
        match e with
        | read_done => s2
        | read_throws m => on_catch s2 m (catch_now env)
        end
    end
  else setError s "Question cannot be empty".

End Decoder.

(** [stopStreaming]: only warns. *)
Definition stopStreaming (s : ChatState) : ChatState := s.

End useChatController.

(* ================================================================== *)
(** * components/Chat/MessageInput.tsx *)
(* ================================================================== *)

Module MessageInput.

(** [handleSubmit]: [question] is the text of the input box; the result
    is the chat state and the new text of the box. *)
Definition handleSubmit (sendMessage : string -> ChatState -> ChatState)
    (question : string) (s : ChatState) : ChatState * string :=
  if negb (truthy (trim question)) || isStreaming s then (s, question)
  else (sendMessage (trim question) s, "").

End MessageInput.

(* ================================================================== *)
(** * The public operations as steps of one machine *)
(* ================================================================== *)

Inductive Op :=
| op_sendMessage (q messageId now : string)
| op_stopStreaming
| op_clearMessages
| op_event (e : ChatStreamEvent).

(** [op_sendMessage] is the synchronous part of the controller's
    [sendMessage]; each event the decode loop (or its [catch]) hands to
    [handleStreamEvent] afterwards is an [op_event]. *)
Definition apply_op (s : ChatState) (o : Op) : ChatState :=
  match o with
  | op_sendMessage q messageId now =>
      ChatProvider.sendMessage
        (Some (fun q => useChatController.sendMessage_begin q messageId now)) q s
  | op_stopStreaming =>
      ChatProvider.stopStreaming (Some useChatController.stopStreaming) s
  | op_clearMessages => clearMessages s
  | op_event e => useChatController.handleStreamEvent s e
  end.

Definition run (s : ChatState) (ops : list Op) : ChatState :=
  fold_left apply_op ops s.

(** A turn is finalized once its status is [completed] or [error]. *)
Definition finalized (m : ChatMessage) : bool :=
  Status.eqb (status m) Status.completed || Status.eqb (status m) Status.error.

(** "[currentMessage] is present and not yet finalized". *)
Definition in_flight (s : ChatState) : bool :=
  match currentMessage s with
  | Some m => negb (finalized m)
  | None => false
  end.

(* ================================================================== *)
(** * services/eventSource.ts *)
(* ================================================================== *)

Module StreamingService.

(** The fields the reconnection policy reads and writes.
    [reconnectTimeout] holds the delay of the pending timer. *)
Record t := {
  reconnectAttempts : Z;
  reconnectTimeout : option Z;
  currentQuestion : option string
}.

Definition maxReconnectAttempts : Z := 3.

(** A service on which [startStream q] has just run. *)
Definition started (q : string) : t := {|
  reconnectAttempts := 0;
  reconnectTimeout := None;
  currentQuestion := Some q
|}.

(** What a call does besides updating the fields. *)
Inductive Effect :=
| notifyStatusChange (status : ConnectionStatus.t) (error : option string)
| setTimeout_reconnect (delay : Z).

Definition handleConnectionError (svc : t) : t * list Effect :=
  if reconnectAttempts svc <? maxReconnectAttempts then
    let attempts := reconnectAttempts svc + 1 in
    let delay := Z.min (1000 * 2 ^ (attempts - 1)) 10000 in
    ({| reconnectAttempts := attempts;
        reconnectTimeout := Some delay;
        currentQuestion := currentQuestion svc |},
     [ notifyStatusChange ConnectionStatus.connecting
         (Some ("Reconnecting... (" ++ toString attempts ++ "/"
                  ++ toString maxReconnectAttempts ++ ")"));
       setTimeout_reconnect delay ])
  else
    (svc,
     [ notifyStatusChange ConnectionStatus.error
         (Some "Connection failed after maximum retry attempts") ]).

(** [n] connection errors in a row, with no successful open or
    message in between (either would reset the counter). *)
Fixpoint consecutive_errors (n : nat) (svc : t) : t :=
  match n with
  | O => svc
  | S n' => fst (handleConnectionError (consecutive_errors n' svc))
  end.

End StreamingService.

(* ================================================================== *)
(** * hooks/useStreamingChat.ts *)
(* ================================================================== *)

Module useStreamingChat.

(** [handleStatusChange]: the [onStatusChange] callback this controller
    gives to [startStream]. *)
Definition handleStatusChange (s : ChatState) (status : ConnectionStatus.t)
    (error : option string) : ChatState :=
  match status with
  | ConnectionStatus.error =>
      setError s (or_default error "Connection error occurred")
  | _ => s
  end.

(** The chat state after the service's effects: each status notification
    goes to [handleStatusChange]. *)
Definition surface (s : ChatState) (effects : list StreamingService.Effect)
    : ChatState :=
  fold_left (fun s e =>
               match e with
               | StreamingService.notifyStatusChange st err =>
                   handleStatusChange s st err
               | StreamingService.setTimeout_reconnect _ => s
               end) effects s.

End useStreamingChat.


(* ================================================================== *)
(** * Framing of the stream, and sample data *)
(* ================================================================== *)

Import useChatController.

(** Sample data for the closed examples. *)
Definition list_tables : Action := {|
  tool := "list_tables";
  category := Category.schema_exploration;
  description := "List tables";
  purpose := "Discover the schema";
  input := "";
  raw_input := ""
|}.

Definition tables_seen : Observation := {|
  result := "Customer,Invoice";
  result_type := ResultType.table_list;
  success := true
|}.

(** U+00A0 NO-BREAK SPACE and U+2003 EM SPACE, in UTF-8. *)
Definition no_break_space : string :=
  String (ascii_of_nat 194) (String (ascii_of_nat 160) "").
Definition em_space : string :=
  String (ascii_of_nat 226)
    (String (ascii_of_nat 128) (String (ascii_of_nat 131) "")).

(** The state right after [sendMessage("Q1")] has dispatched
    [START_STREAMING]. *)
Definition asking_Q1 : ChatState :=
  sendMessage_begin "Q1" "msg_1" "t0" initialState.

(** The half of the flag/turn correspondence that every operation keeps. *)
Definition streaming_has_turn (s : ChatState) : Prop :=
  isStreaming s = true ->
  exists m, currentMessage s = Some m /\
            (status m = Status.thinking \/ status m = Status.processing).

(** The separator ["\n\n"]. *)
Definition blank_line : string := String nl (String nl EmptyString).

(** A record followed by its separator, as the producer writes it. *)
Definition frame (r : string) : string := r ++ blank_line.

(** The text of a stream delivered as the given chunks. *)
Definition stream_text (chunks : list string) : string :=
  fold_right String.append "" chunks.

(** [r] is the text of exactly one record: framed on its own, the split
    gives [r] and an empty remainder. *)
Definition one_record (r : string) : Prop :=
  split_blank_line (frame r) = [r; ""].

(** [pre] ends on a record boundary: nothing is left in the buffer. *)
Definition on_boundary (pre : string) : Prop :=
  last (split_blank_line pre) "" = "".

Fixpoint no_newline (s : string) : bool :=
  match s with
  | EmptyString => true
  | String c s' => negb (Ascii.eqb c nl) && no_newline s'
  end.

(** A parser for the closed examples: it knows four payloads. *)
Definition sample_parse (json : string) : option ChatStreamEvent :=
  if String.eqb json "{A}" then Some (agent_action "t1" 1 None list_tables)
  else if String.eqb json "{O}" then Some (agent_observation "t2" 1 tables_seen)
  else if String.eqb json "{F}" then Some (agent_finish "t3" "USA" 1)
  else if String.eqb json "{C}" then Some (execution_complete "t4")
  else None.

(** A record that starts with the data marker and whose payload does not
    parse. *)
Definition malformed (JSON_parse : string -> option ChatStreamEvent)
    (r : string) : Prop :=
  startsWith r "data:" = true /\
  JSON_parse (trim (substring_from 5 r)) = None.

(** A record that decodes to the event [e]. *)
Definition decodes_to (JSON_parse : string -> option ChatStreamEvent)
    (r : string) (e : ChatStreamEvent) : Prop :=
  startsWith r "data:" = true /\
  JSON_parse (trim (substring_from 5 r)) = Some e.

(* ================================================================== *)
(** * Event sequences *)
(* ================================================================== *)

(** The events delivered to [handleStreamEvent], one after the other. *)
Definition handleStreamEvents (s : ChatState) (es : list ChatStreamEvent)
    : ChatState :=
  fold_left handleStreamEvent es s.

(** Events that only build up the steps of a turn. *)
Definition is_step_event (e : ChatStreamEvent) : bool :=
  match e with
  | agent_action _ _ _ _ | agent_observation _ _ _ => true
  | _ => false
  end.

(** Events that finalize the current turn. *)
Definition is_terminal_event (e : ChatStreamEvent) : bool :=
  match e with
  | agent_finish _ _ _ | error_event _ _ _ _ => true
  | _ => false
  end.

(** The step numbers announced by the [agent_action] events, in order. *)
Fixpoint action_numbers (es : list ChatStreamEvent) : list Z :=
  match es with
  | [] => []
  | agent_action _ n _ _ :: es' => n :: action_numbers es'
  | _ :: es' => action_numbers es'
  end.

(** The step numbers of the current turn, in order; none without a turn. *)
Definition current_step_numbers (s : ChatState) : list Z :=
  match currentMessage s with
  | Some m => map step_number (steps m)
  | None => []
  end.

Definition is_clear (o : Op) : bool :=
  match o with
  | op_clearMessages => true
  | _ => false
  end.

(** The text of the framed records [rs]. *)
Definition frames (rs : list string) : string := stream_text (map frame rs).

(** Every turn of the history is finalized. *)
Definition history_finalized (s : ChatState) : Prop :=
  Forall (fun m => finalized m = true) (messages s).

(** The records [rs] are well framed and decode to the events [es], one
    each, in order. *)
Definition valid_records (JSON_parse : string -> option ChatStreamEvent)
    (rs : list string) (es : list ChatStreamEvent) : Prop :=
  Forall2 (fun r e => one_record r /\ decodes_to JSON_parse r e) rs es.

(** The state [s'] records the failure of the turn asked as [q] from the
    state [s]: the turn is in the history and current, with status [error]
    and the text, which is also the top-level error. *)
Definition failure_recorded (s s' : ChatState) (q messageId now text : string)
    : Prop :=
  let failed := {| id := messageId; question := q; answer := None;
                   steps := []; status := Status.error;
                   execution_time := None; msg_timestamp := now;
                   error_message := Some text |} in
  messages s' = (messages s ++ [failed])%list /\
  currentMessage s' = Some failed /\
  isStreaming s' = false /\
  error s' = Some text.

(* ================================================================== *)
(** * services/eventSource.ts, the event listeners *)
(* ================================================================== *)

(** What the POST of [sendQuestion] delivers. *)
Inductive PostOutcome :=
| post_ok
| post_rejects (thrown : option string)   (* [Some m] for an [Error] *)
| post_not_ok (http_status : Z) (statusText : string).

Module EventSourceService.

(** The service: the fields of [StreamingService.t], and whether an
    [EventSource] is held ([eventSource] is not null). *)
Record t := {
  core : StreamingService.t;
  eventSource : bool
}.

(** A call of one of the two callbacks given to [startStream]. *)
Inductive Call :=
| onEvent (e : ChatStreamEvent)
| onStatusChange (status : ConnectionStatus.t) (error : option string).

Definition with_core (svc : t) (c : StreamingService.t) : t :=
  {| core := c; eventSource := eventSource svc |}.

(** [notifyError]; [at_] is the clock it reads. *)
Definition notifyError (message at_ : string) : list Call :=
  [onEvent (error_event at_ None message "client_error")].

Definition closeExistingConnection (svc : t) : t :=
  {| core := core svc; eventSource := false |}.

Definition clearReconnectTimeout (svc : t) : t :=
  with_core svc
    {| StreamingService.reconnectAttempts :=
         StreamingService.reconnectAttempts (core svc);
       StreamingService.reconnectTimeout := None;
       StreamingService.currentQuestion :=
         StreamingService.currentQuestion (core svc) |}.

(** [closeConnection] *)
Definition closeConnection (svc : t) : t * list Call :=
  let svc1 := closeExistingConnection (clearReconnectTimeout svc) in
  (with_core svc1
     {| StreamingService.reconnectAttempts :=
          StreamingService.reconnectAttempts (core svc1);
        StreamingService.reconnectTimeout :=
          StreamingService.reconnectTimeout (core svc1);
        StreamingService.currentQuestion := None |},
   [onStatusChange ConnectionStatus.disconnected None]).

(** [handleStreamEvent] of the service. *)
Definition handleStreamEvent (svc : t) (event : ChatStreamEvent)
    (at_ : string) : t * list Call :=
  match event with
  | execution_complete _ =>
      let (svc', calls) := closeConnection svc in
      (svc', onEvent event :: calls)
  | error_event _ _ error_message _ =>
      (svc, onEvent event
              :: notifyError
                   (or_default (Some error_message) "Stream error occurred")
                   at_)
  | _ => (svc, [onEvent event])
  end.

(** The status callbacks among the effects of the reconnection policy. *)
Definition status_calls (effects : list StreamingService.Effect)
    : list Call :=
  flat_map (fun e =>
              match e with
              | StreamingService.notifyStatusChange st err =>
                  [onStatusChange st err]
              | StreamingService.setTimeout_reconnect _ => []
              end) effects.

Section Listeners.

Variable JSON_parse : string -> option ChatStreamEvent.

(** [eventSource.onopen] *)
Definition onopen (svc : t) : t * list Call :=
  (with_core svc
     {| StreamingService.reconnectAttempts := 0;
        StreamingService.reconnectTimeout :=
          StreamingService.reconnectTimeout (core svc);
        StreamingService.currentQuestion :=
          StreamingService.currentQuestion (core svc) |},
   [onStatusChange ConnectionStatus.connected None]).

(** [eventSource.onmessage]: [data] is [event.data]. *)
Definition onmessage (svc : t) (data at_ : string) : t * list Call :=
  match JSON_parse data with
  | Some ev =>
      let (svc', calls) := handleStreamEvent svc ev at_ in
      (with_core svc'
         {| StreamingService.reconnectAttempts := 0;
            StreamingService.reconnectTimeout :=
              StreamingService.reconnectTimeout (core svc');
            StreamingService.currentQuestion :=
              StreamingService.currentQuestion (core svc') |},
       calls)
  | None => (svc, notifyError "Failed to parse server message" at_)
  end.

End Listeners.

(** [eventSource.onerror] *)
Definition onerror (svc : t) : t * list Call :=
  let (c, effects) := StreamingService.handleConnectionError (core svc) in
  (with_core svc c, status_calls effects).

(** The [Error] thrown by [sendQuestion], if any: [None] when the POST
    went through, [Some thrown] otherwise. *)
Definition sendQuestion (post : PostOutcome) : option (option string) :=
  match post with
  | post_ok => None
  | post_rejects thrown => Some thrown
  | post_not_ok code statusText =>
      Some (Some ("HTTP " ++ toString code ++ ": " ++ statusText))
  end.

(** [startStream]: the new service, the callbacks called, and what the
    returned promise rejects with, if it does. *)
Definition startStream (svc : t) (q : string) (post : PostOutcome)
    : t * list Call * option (option string) :=
  let svc1 :=
    {| core :=
         {| StreamingService.reconnectAttempts :=
              StreamingService.reconnectAttempts (core svc);
            StreamingService.reconnectTimeout :=
              StreamingService.reconnectTimeout (core svc);
            StreamingService.currentQuestion := Some q |};
       eventSource := true |} in
  let connecting := onStatusChange ConnectionStatus.connecting None in
  match sendQuestion post with
  | None => (svc1, [connecting], None)
  | Some thrown =>
      (svc1,
       [connecting;
        onStatusChange ConnectionStatus.error
          (Some (match thrown with
                 | Some m => m
                 | None => "Failed to start stream"
                 end))],
       Some thrown)
  end.

(** [reconnect] *)
Definition reconnect (svc : t) (post : PostOutcome) : t * list Call :=
  match StreamingService.currentQuestion (core svc) with
  | Some q =>
      if truthy q then
        let '(svc', calls, rejected) := startStream svc q post in
        match rejected with
        | None => (svc', calls)
        | Some _ =>
            (svc', (calls ++ [onStatusChange ConnectionStatus.error
                                (Some "Reconnection failed")])%list)
        end
      else (svc, [])
  | None => (svc, [])
  end.

(** The callback given to [setTimeout], when the timer fires. *)
Definition timer_fires (svc : t) (post : PostOutcome) : t * list Call :=
  match StreamingService.currentQuestion (core svc) with
  | Some q => if truthy q then reconnect svc post else (svc, [])
  | None => (svc, [])
  end.

End EventSourceService.

(* ================================================================== *)
(** * hooks/useStreamingChat.ts, the controller on the service

    (the EventSource-based [useChatController] has the same body) *)
(* ================================================================== *)

Module StreamingChat.

(** [currentStepsRef]: a [Map] from step number to step, in insertion
    order. *)
Definition StepMap := list (Z * ReActStep).

Fixpoint map_get (k : Z) (m : StepMap) : option ReActStep :=
  match m with
  | [] => None
  | (k', v) :: m' => if k' =? k then Some v else map_get k m'
  end.

Fixpoint map_set (k : Z) (v : ReActStep) (m : StepMap) : StepMap :=
  match m with
  | [] => [(k, v)]
  | (k', v') :: m' =>
      if k' =? k then (k, v) :: m' else (k', v') :: map_set k v m'
  end.

(** The controller: its step cache and the chat state it dispatches to. *)
Record t := {
  currentStepsRef : StepMap;
  chat : ChatState
}.

Definition with_chat (c : t) (s : ChatState) : t :=
  {| currentStepsRef := currentStepsRef c; chat := s |}.

(** [handleStreamEvent] *)
Definition handleStreamEvent (c : t) (event : ChatStreamEvent) : t :=
  match event with
  | execution_start _ _ _ => with_chat c (clearError (chat c))
  | agent_action ts n th act =>
      let newStep := {| step_number := n; thought := th; action := act;
                        observation := None; timestamp := ts |} in
      {| currentStepsRef := map_set n newStep (currentStepsRef c);
         chat := addStep (chat c) newStep |}
  | agent_observation _ n obs =>
      match map_get n (currentStepsRef c) with
      | Some existingStep =>
          let updatedStep := {|
            step_number := step_number existingStep;
            thought := thought existingStep;
            action := action existingStep;
            observation := Some obs;
            timestamp := timestamp existingStep |} in
          {| currentStepsRef := map_set n updatedStep (currentStepsRef c);
             chat := updateStep (chat c) n obs |}
      | None => c
      end
  | agent_finish _ final_answer total_steps =>
      with_chat c (setFinalAnswer (chat c) final_answer total_steps None)
  | execution_summary _ _ _ => c
  | execution_complete _ =>
      {| currentStepsRef := []; chat := completeMessage (chat c) |}
  | heartbeat _ => c
  | error_event _ _ error_message _ =>
      {| currentStepsRef := [];
         chat := setError (chat c)
                   (or_default (Some error_message)
                      "An error occurred during processing") |}
  | unknown_event _ => c
  end.

(** One callback call of the service, taken by the controller. *)
Definition deliver (c : t) (call : EventSourceService.Call) : t :=
  match call with
  | EventSourceService.onEvent e => handleStreamEvent c e
  | EventSourceService.onStatusChange st err =>
      with_chat c (useStreamingChat.handleStatusChange (chat c) st err)
  end.

Definition deliver_all (c : t) (calls : list EventSourceService.Call) : t :=
  fold_left deliver calls c.

(** [sendMessage] *)
Definition sendMessage (svc : EventSourceService.t) (c : t)
    (q messageId now : string) (post : PostOutcome)
    : EventSourceService.t * t :=
  if truthy (trim q) then
    let c1 := with_chat c (startStreaming (chat c) q messageId now) in
    let '(svc', calls, rejected) :=
      EventSourceService.startStream svc q post in
    let c2 := deliver_all c1 calls in
    match rejected with
    | None => (svc', c2)
    | Some thrown =>
        (svc', with_chat c2
                 (setError (chat c2)
                    (match thrown with
                     | Some m => m
                     | None => "Failed to send message"
                     end)))
    end
  else (svc, with_chat c (setError (chat c) "Question cannot be empty")).

(** [stopStreaming] of the controller. *)
Definition stopStreaming (svc : EventSourceService.t) (c : t)
    : EventSourceService.t * t :=
  let (svc', calls) := EventSourceService.closeConnection svc in
  (svc', {| currentStepsRef := []; chat := chat (deliver_all c calls) |}).

(** The cache knows every step number of the current turn. *)
Definition cache_covers_turn (c : t) : Prop :=
  forall n, In n (current_step_numbers (chat c)) ->
            map_get n (currentStepsRef c) <> None.

Definition is_error_event (e : ChatStreamEvent) : bool :=
  match e with
  | error_event _ _ _ _ => true
  | _ => false
  end.

End StreamingChat.

(* ================================================================== *)
(** * The service as a machine *)
(* ================================================================== *)

(** What can happen to the service: its listeners fire, its timer fires,
    or a controller calls [startStream] or [closeConnection]. *)
Inductive ServiceOp :=
| sv_open
| sv_message (data at_ : string)
| sv_error
| sv_timer (post : PostOutcome)
| sv_startStream (q : string) (post : PostOutcome)
| sv_closeConnection.

(** The service as its constructor leaves it. *)
Definition new_service : EventSourceService.t := {|
  EventSourceService.core :=
    {| StreamingService.reconnectAttempts := 0;
       StreamingService.reconnectTimeout := None;
       StreamingService.currentQuestion := None |};
  EventSourceService.eventSource := false
|}.

Definition service_step (JSON_parse : string -> option ChatStreamEvent)
    (st : EventSourceService.t * list EventSourceService.Call)
    (o : ServiceOp) : EventSourceService.t * list EventSourceService.Call :=
  let svc := fst st in
  let (svc', calls) :=
    match o with
    | sv_open => EventSourceService.onopen svc
    | sv_message data at_ => EventSourceService.onmessage JSON_parse svc data at_
    | sv_error => EventSourceService.onerror svc
    | sv_timer post => EventSourceService.timer_fires svc post
    | sv_startStream q post =>
        fst (EventSourceService.startStream svc q post)
    | sv_closeConnection => EventSourceService.closeConnection svc
    end in
  (svc', (snd st ++ calls)%list).

(** The service after the operations, and every callback call made. *)
Definition service_run (JSON_parse : string -> option ChatStreamEvent)
    (ops : list ServiceOp) : EventSourceService.t * list EventSourceService.Call :=
  fold_left (service_step JSON_parse) ops (new_service, []).

(** The counter is within its bounds and a pending timer has one of the
    three delays. *)
Definition backoff_in_bounds (svc : EventSourceService.t) : Prop :=
  let c := EventSourceService.core svc in
  0 <= StreamingService.reconnectAttempts c <= 3 /\
  forall d, StreamingService.reconnectTimeout c = Some d ->
            d = 1000 \/ d = 2000 \/ d = 4000.

(** Sample data for the closed examples on the service: a parser that
    also knows an [error] payload, a controller with a turn in flight,
    and a service three failures into a stream. *)
Definition sample_parse_E (json : string) : option ChatStreamEvent :=
  if String.eqb json "{E}"
  then Some (error_event "t5" None "database is down" "server")
  else sample_parse json.

Definition cached_Q1 : StreamingChat.t := {|
  StreamingChat.currentStepsRef := [];
  StreamingChat.chat := asking_Q1
|}.

Definition failing_service : EventSourceService.t :=
  fst (service_run sample_parse
         [sv_startStream "Q1" post_ok; sv_error; sv_error; sv_error]).

(* ================================================================== *)
(** * Properties of the reducer and of event dispatch *)
(* ================================================================== *)

Ltac unfold_dispatch :=
  unfold handleStreamEvent, setFinalAnswer, setError, addStep, updateStep,
         clearError, completeMessage, startStreaming, clearMessages,
         chatReducer in *.

(** ** agent_finish *)

(** C1, as stated, fails: after [agent_finish] on a state with a current
    turn, [currentMessage] is still present. *)
Lemma agent_finish_keeps_currentMessage :
  currentMessage asking_Q1 <> None /\
  currentMessage (handleStreamEvent asking_Q1 (agent_finish "t1" "USA" 1))
    <> None.
Proof. split; vm_compute; discriminate. Qed.

(** C1 (amended): on a state with a current turn [m], [agent_finish]
    appends exactly one turn to [messages] (the length grows by one); the
    appended turn is [m] with its answer set and status [completed];
    [isStreaming] becomes false; [currentMessage] then holds that same
    completed turn, and becomes absent when the following
    [execution_complete] is applied, which leaves [messages] as they are. *)
Theorem agent_finish_appends_completed_turn :
  forall s m ts final_answer total_steps ts',
    currentMessage s = Some m ->
    let s' := handleStreamEvent s (agent_finish ts final_answer total_steps) in
    let s'' := handleStreamEvent s' (execution_complete ts') in
    exists m',
      messages s' = (messages s ++ [m'])%list /\
      length (messages s') = S (length (messages s)) /\
      answer m' = Some final_answer /\
      status m' = Status.completed /\
      id m' = id m /\ question m' = question m /\ steps m' = steps m /\
      currentMessage s' = Some m' /\
      isStreaming s' = false /\
      error s' = error s /\
      currentMessage s'' = None /\
      messages s'' = messages s'.
Proof.
  intros s m ts ans n ts' Hcur s' s''.
  subst s'' s'. unfold_dispatch. rewrite Hcur. cbn.
  eexists. repeat split; try reflexivity.
  rewrite length_app. cbn. lia.
Qed.

Lemma agent_finish_appends_completed_turn_witness :
  exists m',
    messages (handleStreamEvent asking_Q1 (agent_finish "t1" "USA" 1))
      = (messages asking_Q1 ++ [m'])%list /\
    status m' = Status.completed.
Proof.
  destruct (agent_finish_appends_completed_turn
              asking_Q1
              {| id := "msg_1"; question := "Q1"; answer := None; steps := [];
                 status := Status.thinking; execution_time := None;
                 msg_timestamp := "t0"; error_message := None |}
              "t1" "USA" 1 "t2" eq_refl)
    as [m' [H1 [_ [_ [H4 _]]]]].
  exists m'. split; [exact H1 | exact H4].
Defined.

(** ** No current turn *)

(** C6, as stated, fails for the [error] event: on the initial state it
    sets the top-level [error]. *)
Lemma error_event_without_turn_changes_state :
  currentMessage initialState = None /\
  handleStreamEvent initialState (error_event "t1" (Some "boom") "boom" "server")
    <> initialState.
Proof. split; [reflexivity | vm_compute; discriminate]. Qed.

(** C6 (amended): with no current turn, [agent_finish] leaves the state as
    it is; an [error] event leaves [messages] and [currentMessage] as they
    are, sets the top-level [error] to the event's message (or the default
    text) and sets [isStreaming] to false. *)
Theorem no_current_turn_finish_noop_error_sets_banner :
  forall s ts final_answer total_steps message error_message error_type,
    currentMessage s = None ->
    handleStreamEvent s (agent_finish ts final_answer total_steps) = s /\
    let s' := handleStreamEvent s
                (error_event ts message error_message error_type) in
    messages s' = messages s /\
    currentMessage s' = None /\
    isStreaming s' = false /\
    error s' = Some (or_default message "An error occurred during processing").
Proof.
  intros s ts ans n msg em et Hcur. unfold_dispatch. rewrite Hcur. cbn.
  repeat split.
Qed.

Lemma no_current_turn_finish_noop_error_sets_banner_witness :
  handleStreamEvent initialState (agent_finish "t1" "USA" 1) = initialState /\
  error (handleStreamEvent initialState
           (error_event "t1" (Some "boom") "boom" "server")) = Some "boom".
Proof.
  destruct (no_current_turn_finish_noop_error_sets_banner
              initialState "t1" "USA" 1 (Some "boom") "boom" "server" eq_refl)
    as [H1 [_ [_ [_ H5]]]].
  split; [exact H1 | exact H5].
Defined.

(** ** agent_observation *)

Lemma update_observation_idempotent n obs step :
  update_observation n obs (update_observation n obs step)
  = update_observation n obs step.
Proof.
  unfold update_observation.
  destruct (step_number step =? n) eqn:E; cbn; rewrite E; reflexivity.
Qed.

Lemma map_idempotent {A} (f : A -> A) :
  (forall x, f (f x) = f x) -> forall l, map f (map f l) = map f l.
Proof.
  intros Hf l. rewrite map_map. apply map_ext. exact Hf.
Qed.

(** C7: applying [UPDATE_STEP] with the same step number and observation
    twice gives the state a single application gives, for every state;
    hence the same for a duplicated [agent_observation] event. *)
Theorem UPDATE_STEP_idempotent :
  forall s n obs,
    chatReducer (chatReducer s (UPDATE_STEP n obs)) (UPDATE_STEP n obs)
    = chatReducer s (UPDATE_STEP n obs) /\
    forall ts ts',
      handleStreamEvent (handleStreamEvent s (agent_observation ts n obs))
                        (agent_observation ts' n obs)
      = handleStreamEvent s (agent_observation ts n obs).
Proof.
  assert (H : forall s n obs,
    chatReducer (chatReducer s (UPDATE_STEP n obs)) (UPDATE_STEP n obs)
    = chatReducer s (UPDATE_STEP n obs)).
  { intros s n obs. cbn. destruct (currentMessage s) as [m|] eqn:Hcur; cbn.
    - rewrite (map_idempotent _ (update_observation_idempotent n obs)).
      reflexivity.
    - rewrite Hcur. reflexivity. }
  intros s n obs. split; [apply H | intros; apply H].
Qed.

(** ** agent_action *)

(** C5, as stated, fails: a second [agent_action] with step number 1 is
    appended next to the first, so two steps carry the number 1. *)
Lemma repeated_agent_action_duplicates_step :
  let s1 := handleStreamEvent asking_Q1
              (agent_action "t1" 1 None list_tables) in
  let s2 := handleStreamEvent s1 (agent_action "t2" 1 None list_tables) in
  option_map (fun m => map step_number (steps m)) (currentMessage s1)
    = Some [1] /\
  option_map (fun m => map step_number (steps m)) (currentMessage s2)
    = Some [1; 1].
Proof. split; reflexivity. Qed.

(** C5 (amended): on a state with a current turn, [agent_action] appends
    its step at the end of the turn's steps and sets the status to
    [processing], whether or not a step with that number is already
    there; when one is, the steps afterwards hold that number twice. *)
Theorem agent_action_always_appends :
  forall s m ts n th act,
    currentMessage s = Some m ->
    exists m',
      currentMessage (handleStreamEvent s (agent_action ts n th act)) = Some m' /\
      steps m' = (steps m ++ [{| step_number := n; thought := th;
                                 action := act; observation := None;
                                 timestamp := ts |}])%list /\
      length (steps m') = S (length (steps m)) /\
      status m' = Status.processing /\
      (In n (map step_number (steps m)) ->
       ~ NoDup (map step_number (steps m'))).
Proof.
  intros s m ts n th act Hcur. unfold_dispatch. rewrite Hcur. cbn.
  eexists. split; [reflexivity|]. cbn. repeat split.
  - rewrite length_app. cbn. lia.
  - intros Hin Hnd. rewrite map_app in Hnd. cbn in Hnd.
    apply NoDup_remove_2 in Hnd. rewrite app_nil_r in Hnd. contradiction.
Qed.

Lemma agent_action_always_appends_witness :
  exists m',
    currentMessage
      (handleStreamEvent asking_Q1 (agent_action "t1" 1 None list_tables))
      = Some m' /\
    length (steps m') = 1%nat.
Proof.
  destruct (agent_action_always_appends
              asking_Q1
              {| id := "msg_1"; question := "Q1"; answer := None; steps := [];
                 status := Status.thinking; execution_time := None;
                 msg_timestamp := "t0"; error_message := None |}
              "t1" 1 None list_tables eq_refl)
    as [m' [H1 [_ [H3 _]]]].
  exists m'. split; [exact H1 | exact H3].
Defined.

(** ** CLEAR_MESSAGES *)

(** C10: [clearMessages] takes every state to the initial state (no
    messages, no current turn, not streaming, no error); so a history
    that holds a turn is emptied by it, and [messages] is not
    append-only over the public operations. *)
Theorem clearMessages_resets_to_initialState :
  (forall s,
     clearMessages s = initialState /\
     messages (clearMessages s) = [] /\
     currentMessage (clearMessages s) = None /\
     isStreaming (clearMessages s) = false /\
     error (clearMessages s) = None) /\
  (let s := run initialState
              [op_sendMessage "Q1" "msg_1" "t0";
               op_event (agent_finish "t1" "USA" 0)] in
   length (messages s) = 1%nat /\
   length (messages (run s [op_clearMessages])) = 0%nat).
Proof.
  split.
  - intros s. repeat split.
  - split; reflexivity.
Qed.

(* ================================================================== *)
(** * The streaming flag and the current turn *)
(* ================================================================== *)

Lemma streaming_has_turn_initial : streaming_has_turn initialState.
Proof. intros H. discriminate H. Qed.

Lemma streaming_has_turn_reducer s a :
  streaming_has_turn s -> streaming_has_turn (chatReducer s a).
Proof.
  unfold streaming_has_turn. intros IH.
  destruct a; cbn; try discriminate.
  - (* START_STREAMING *) intros _. eexists. split; [reflexivity | now left].
  - (* ADD_STEP *)
    destruct (currentMessage s) as [m|] eqn:Hcur; cbn.
    + intros _. eexists. split; [reflexivity | now right].
    + rewrite Hcur. exact IH.
  - (* UPDATE_STEP *)
    destruct (currentMessage s) as [m|] eqn:Hcur; cbn.
    + intros Hs. destruct (IH Hs) as [m0 [Hm0 Hst]].
      injection Hm0 as <-. eexists. split; [reflexivity | exact Hst].
    + rewrite Hcur. exact IH.
  - (* SET_FINAL_ANSWER *)
    destruct (currentMessage s) as [m|] eqn:Hcur; cbn.
    + discriminate.
    + rewrite Hcur. exact IH.
  - (* CLEAR_ERROR *) exact IH.
  - (* COMPLETE_MESSAGE *)
    destruct (currentMessage s) as [m|] eqn:Hcur; cbn.
    + discriminate.
    + rewrite Hcur. exact IH.
Qed.

Lemma streaming_has_turn_event s e :
  streaming_has_turn s -> streaming_has_turn (handleStreamEvent s e).
Proof.
  intros IH. destruct e; unfold handleStreamEvent;
    try exact IH; now apply streaming_has_turn_reducer.
Qed.

Lemma streaming_has_turn_op s o :
  streaming_has_turn s -> streaming_has_turn (apply_op s o).
Proof.
  intros IH. destruct o; cbn [apply_op].
  - unfold ChatProvider.sendMessage, sendMessage_begin.
    destruct (truthy (trim q)); now apply streaming_has_turn_reducer.
  - unfold ChatProvider.stopStreaming, stopStreaming.
    now apply streaming_has_turn_reducer.
  - now apply streaming_has_turn_reducer.
  - now apply streaming_has_turn_event.
Qed.

Lemma streaming_has_turn_run ops :
  forall s, streaming_has_turn s -> streaming_has_turn (run s ops).
Proof.
  induction ops as [|o ops IH]; intros s Hs; cbn.
  - exact Hs.
  - apply IH. now apply streaming_has_turn_op.
Qed.

(** C2, as stated, fails from right to left: after [sendMessage] and then
    [stopStreaming] the current turn is present with status [thinking]
    while [isStreaming] is false. *)
Lemma stopped_turn_present_not_streaming :
  let s := run initialState [op_sendMessage "Q1" "msg_1" "t0"; op_stopStreaming] in
  isStreaming s = false /\
  in_flight s = true /\
  option_map status (currentMessage s) = Some Status.thinking.
Proof. repeat split. Qed.

(** C2 (amended): in every state reached from the initial state by
    [sendMessage], [stopStreaming], [clearMessages] and decoded events,
    if [isStreaming] is true then [currentMessage] is present and its
    status is [thinking] or [processing], so neither [completed] nor
    [error]. *)
Theorem isStreaming_implies_turn_in_flight :
  forall ops,
    let s := run initialState ops in
    isStreaming s = true ->
    in_flight s = true /\
    exists m, currentMessage s = Some m /\
              status m <> Status.completed /\ status m <> Status.error.
Proof.
  intros ops s Hs.
  destruct (streaming_has_turn_run ops _ streaming_has_turn_initial Hs)
    as [m [Hm Hst]].
  fold s in Hm. unfold in_flight, finalized. rewrite Hm.
  split.
  - destruct Hst as [-> | ->]; reflexivity.
  - exists m. split; [reflexivity|].
    destruct Hst as [-> | ->]; split; discriminate.
Qed.

Lemma isStreaming_implies_turn_in_flight_witness :
  in_flight (run initialState
               [op_sendMessage "Q1" "msg_1" "t0";
                op_event (agent_action "t1" 1 None list_tables)]) = true.
Proof.
  exact (proj1 (isStreaming_implies_turn_in_flight
                  [op_sendMessage "Q1" "msg_1" "t0";
                   op_event (agent_action "t1" 1 None list_tables)]
                  eq_refl)).
Defined.

(* ================================================================== *)
(** * Submitting while a turn is streaming *)
(* ================================================================== *)

(** C3, as stated, fails: the controller's [sendMessage] has no check of
    [isStreaming].  While "Q1" is streaming, a call with "Q2" puts a new
    turn in place of the one in flight, and a call with a blank question
    finalizes the turn in flight as an error and sets [error]. *)
Lemma sendMessage_while_streaming_replaces_turn :
  isStreaming asking_Q1 = true /\
  option_map question (currentMessage asking_Q1) = Some "Q1" /\
  option_map question
    (currentMessage (sendMessage_begin "Q2" "msg_2" "t5" asking_Q1))
    = Some "Q2" /\
  option_map status
    (currentMessage (sendMessage_begin "  " "msg_2" "t5" asking_Q1))
    = Some Status.error /\
  error (sendMessage_begin "  " "msg_2" "t5" asking_Q1)
    <> error asking_Q1.
Proof. repeat split. vm_compute. discriminate. Qed.

(** C3 (amended): the single-flight check is in the input box.  For every
    state in which [isStreaming] is true, [handleSubmit] with any text, and
    whatever handler is registered, returns without calling [sendMessage]:
    the chat state (and with it the in-flight turn and [error]) and the
    text are as before.  The controller's [sendMessage] itself, given a
    non-blank question, starts a new turn in place of the current one. *)
Theorem submit_while_streaming_stopped_by_input_guard :
  forall (handler : string -> ChatState -> ChatState) q s,
    isStreaming s = true ->
    MessageInput.handleSubmit handler q s = (s, q) /\
    forall messageId now,
      truthy (trim q) = true ->
      sendMessage_begin q messageId now s =
        {| messages := messages s;
           currentMessage :=
             Some {| id := messageId; question := q; answer := None;
                     steps := []; status := Status.thinking;
                     execution_time := None; msg_timestamp := now;
                     error_message := None |};
           isStreaming := true;
           error := None |}.
Proof.
  intros handler q s Hs. split.
  - unfold MessageInput.handleSubmit. rewrite Hs, orb_true_r. reflexivity.
  - intros messageId now Hq. unfold sendMessage_begin. rewrite Hq.
    reflexivity.
Qed.

Lemma submit_while_streaming_stopped_by_input_guard_witness :
  MessageInput.handleSubmit
    (fun q => sendMessage_begin q "msg_2" "t5") "Q2" asking_Q1
  = (asking_Q1, "Q2").
Proof.
  exact (proj1 (submit_while_streaming_stopped_by_input_guard
                  (fun q => sendMessage_begin q "msg_2" "t5") "Q2" asking_Q1
                  eq_refl)).
Defined.

(* ================================================================== *)
(** * Stopping mid-stream *)
(* ================================================================== *)

(** C4, as stated, fails: after [stopStreaming] on a streaming state the
    current turn is still present. *)
Lemma stopStreaming_keeps_currentMessage :
  isStreaming asking_Q1 = true /\
  currentMessage asking_Q1 <> None /\
  currentMessage
    (ChatProvider.stopStreaming (Some stopStreaming) asking_Q1) <> None.
Proof. repeat split; vm_compute; discriminate. Qed.

(** C4 (amended): for every state with a turn in flight, [stopStreaming]
    (with the controller's handler registered, or none) yields a state
    where [isStreaming] is false, [messages] is unchanged (nothing is
    appended) and [currentMessage] is unchanged: the turn stays where it
    was; [error] is unchanged as well. *)
Theorem stopStreaming_clears_flag_only :
  forall s m,
    currentMessage s = Some m ->
    isStreaming s = true ->
    forall ref,
      ref = None \/ ref = Some stopStreaming ->
      let s' := ChatProvider.stopStreaming ref s in
      isStreaming s' = false /\
      currentMessage s' = Some m /\
      messages s' = messages s /\
      error s' = error s.
Proof.
  intros s m Hcur _ ref [-> | ->] s'; subst s';
    unfold ChatProvider.stopStreaming, stopStreaming; cbn;
    rewrite Hcur; repeat split.
Qed.

Lemma stopStreaming_clears_flag_only_witness :
  isStreaming (ChatProvider.stopStreaming (Some stopStreaming) asking_Q1)
    = false /\
  messages (ChatProvider.stopStreaming (Some stopStreaming) asking_Q1)
    = messages asking_Q1.
Proof.
  destruct (stopStreaming_clears_flag_only
              asking_Q1
              {| id := "msg_1"; question := "Q1"; answer := None; steps := [];
                 status := Status.thinking; execution_time := None;
                 msg_timestamp := "t0"; error_message := None |}
              eq_refl eq_refl (Some stopStreaming) (or_intror eq_refl))
    as [H1 [_ [H3 _]]].
  split; [exact H1 | exact H3].
Defined.

(* ================================================================== *)
(** * Reconnection backoff of StreamingService *)
(* ================================================================== *)

Module Backoff.
Import StreamingService useStreamingChat.

(** C9: the [n]-th connection error in a row, for 1 <= n <= 3 = the
    maximum attempt count, schedules a reconnection after
    min(1000 * 2^(n-1), 10000) ms and announces it as attempt [n] of 3;
    the error after the third does not schedule anything: it reports
    the status [error] with a terminal message, which the status
    callback of [useStreamingChat] puts into the chat state through
    [SET_ERROR]. *)
Theorem handleConnectionError_backoff :
  forall (n : nat) q,
    (1 <= n <= 3)%nat ->
    let delay := Z.min (1000 * 2 ^ (Z.of_nat n - 1)) 10000 in
    let exhausted := consecutive_errors 3 (started q) in
    handleConnectionError (consecutive_errors (n - 1) (started q)) =
      ({| reconnectAttempts := Z.of_nat n;
          reconnectTimeout := Some delay;
          currentQuestion := Some q |},
       [ notifyStatusChange ConnectionStatus.connecting
           (Some ("Reconnecting... (" ++ toString (Z.of_nat n) ++ "/3)"));
         setTimeout_reconnect delay ]) /\
    handleConnectionError exhausted =
      (exhausted,
       [ notifyStatusChange ConnectionStatus.error
           (Some "Connection failed after maximum retry attempts") ]) /\
    forall s,
      surface s (snd (handleConnectionError exhausted)) =
        setError s "Connection failed after maximum retry attempts".
Proof.
  intros n q Hn delay exhausted. subst delay exhausted.
  assert (Hcases : n = 1%nat \/ n = 2%nat \/ n = 3%nat) by lia.
  split; [| split].
  - destruct Hcases as [-> | [-> | ->]]; reflexivity.
  - reflexivity.
  - intros s. reflexivity.
Qed.

Lemma handleConnectionError_backoff_witness :
  snd (handleConnectionError (consecutive_errors 1 (started "Q1"))) =
    [ notifyStatusChange ConnectionStatus.connecting
        (Some "Reconnecting... (2/3)");
      setTimeout_reconnect 2000 ].
Proof.
  exact (f_equal snd
           (proj1 (handleConnectionError_backoff 2 "Q1"
                     (conj (le_S _ _ (le_n 1)) (le_S _ _ (le_n 2)))))).
Defined.

End Backoff.

(* ================================================================== *)
(** * The decode loop: framing and malformed records *)
(* ================================================================== *)

Lemma append_assoc (a b c : string) : (a ++ b) ++ c = a ++ b ++ c.
Proof. induction a as [|x a IH]; cbn; [reflexivity | now rewrite IH]. Qed.

Lemma append_empty_r (a : string) : a ++ "" = a.
Proof. induction a as [|x a IH]; cbn; [reflexivity | now rewrite IH]. Qed.

(** Induction on strings two characters at a time, as the split reads
    them. *)
Lemma string_pair_ind (P : string -> Prop) :
  P "" ->
  (forall c, P (String c "")) ->
  (forall c c' s, P s -> P (String c' s) -> P (String c (String c' s))) ->
  forall s, P s.
Proof.
  intros H0 H1 H2.
  assert (H : forall s, P s /\ forall c, P (String c s)).
  { induction s as [|c s [IHs IHc]].
    - split; [exact H0 | exact H1].
    - split; [apply IHc | intros c0; apply H2; [exact IHs | apply IHc]]. }
  intros s. apply H.
Qed.

(** The equation of the split on a text of two characters or more. *)
Lemma split_blank_line_step c c' s :
  split_blank_line (String c (String c' s)) =
    if Ascii.eqb c nl && Ascii.eqb c' nl
    then EmptyString :: split_blank_line s
    else cons_head c (split_blank_line (String c' s)).
Proof. reflexivity. Qed.

Lemma split_blank_line_nonempty s : split_blank_line s <> [].
Proof.
  induction s as [| c | c c' s IHs IHc] using string_pair_ind;
    try discriminate.
  rewrite split_blank_line_step.
  destruct (Ascii.eqb c nl && Ascii.eqb c' nl); [discriminate|].
  destruct (split_blank_line (String c' s)); cbn [cons_head]; discriminate.
Qed.

(** A text without separator is its own single piece. *)
Lemma split_blank_line_single s p : split_blank_line s = [p] -> p = s.
Proof.
  revert p.
  induction s as [| c | c c' s IHs IHc] using string_pair_ind;
    intros p.
  - now intros [= <-].
  - now intros [= <-].
  - rewrite split_blank_line_step.
    destruct (Ascii.eqb c nl && Ascii.eqb c' nl).
    + intros [= _ H]. now apply split_blank_line_nonempty in H.
    + destruct (split_blank_line (String c' s)) as [|p0 [|p1 ps]] eqn:E;
        cbn [cons_head].
      * now apply split_blank_line_nonempty in E.
      * intros [= <-]. now rewrite (IHc p0 eq_refl).
      * discriminate.
Qed.

(** Splitting a text that arrives in two parts: the complete pieces of
    the first part, then the split of its remainder followed by the
    second part. *)
Lemma split_blank_line_app x y :
  split_blank_line (x ++ y) =
    (removelast (split_blank_line x)
       ++ split_blank_line (last (split_blank_line x) "" ++ y))%list.
Proof.
  induction x as [| c | c c' x IHx IHc] using string_pair_ind.
  - reflexivity.
  - reflexivity.
  - change (String c (String c' x) ++ y) with (String c (String c' (x ++ y))).
    rewrite !split_blank_line_step.
    destruct (Ascii.eqb c nl && Ascii.eqb c' nl) eqn:Hsep.
    + rewrite IHx.
      pose proof (split_blank_line_nonempty x) as Hne.
      destruct (split_blank_line x) as [|p ps]; [contradiction|].
      reflexivity.
    + change (String c' (x ++ y)) with (String c' x ++ y). rewrite IHc.
      destruct (split_blank_line (String c' x)) as [|p [|p' ps]] eqn:E.
      * now apply split_blank_line_nonempty in E.
      * apply split_blank_line_single in E. subst p.
        cbn [cons_head removelast last app].
        change (String c (String c' x) ++ y)
          with (String c (String c' (x ++ y))).
        rewrite split_blank_line_step, Hsep. reflexivity.
      * reflexivity.
Qed.

Lemma last_app_nonempty {A} (l l' : list A) d :
  l' <> [] -> last (l ++ l') d = last l' d.
Proof.
  intros Hne. induction l as [|a l IH]; [reflexivity|].
  cbn [app last]. destruct (l ++ l')%list eqn:E.
  - apply app_eq_nil in E. destruct E as [_ E]. contradiction.
  - exact IH.
Qed.

(** A record without newline characters is one record. *)
Lemma no_newline_one_record r : no_newline r = true -> one_record r.
Proof.
  unfold one_record, frame.
  induction r as [|c r IH]; intros Hr.
  - reflexivity.
  - cbn [no_newline] in Hr. apply andb_prop in Hr. destruct Hr as [Hc Hr].
    specialize (IH Hr).
    change (String c r ++ blank_line) with (String c (r ++ blank_line)).
    destruct (r ++ blank_line) as [|c' t] eqn:E.
    + destruct r; discriminate E.
    + rewrite split_blank_line_step.
      destruct (Ascii.eqb c nl); [discriminate Hc|]. cbn [andb].
      rewrite IH. reflexivity.
Qed.

Lemma on_boundary_frame pre r :
  on_boundary pre -> one_record r -> on_boundary (pre ++ frame r).
Proof.
  unfold on_boundary, one_record. intros Hpre Hr.
  rewrite split_blank_line_app, Hpre. cbn [append]. rewrite Hr.
  rewrite last_app_nonempty by discriminate. reflexivity.
Qed.

(** The split of a text that starts with a framed record, and of one that
    holds a framed record after complete records. *)
Lemma split_leading_frame r post :
  one_record r ->
  split_blank_line (frame r ++ post) = r :: split_blank_line post.
Proof.
  unfold one_record. intros Hr.
  rewrite split_blank_line_app, Hr. reflexivity.
Qed.

Lemma split_framed_record pre r post :
  on_boundary pre -> one_record r ->
  split_blank_line (pre ++ frame r ++ post) =
    (removelast (split_blank_line pre) ++ r :: split_blank_line post)%list.
Proof.
  unfold on_boundary. intros Hpre Hr.
  rewrite split_blank_line_app, Hpre. cbn [append].
  now rewrite split_leading_frame.
Qed.

Lemma split_frames rs :
  Forall one_record rs ->
  split_blank_line (stream_text (map frame rs)) = (rs ++ [""])%list.
Proof.
  induction 1 as [|r rs Hr _ IH]; [reflexivity|].
  cbn [map stream_text fold_right].
  fold (stream_text (map frame rs)).
  now rewrite split_leading_frame, IH.
Qed.

Section DecodeLoop.

Variable JSON_parse : string -> option ChatStreamEvent.

(** Two chunks in a row are read as their concatenation is. *)
Lemma processChunk_app st c1 c2 :
  processChunk JSON_parse (processChunk JSON_parse st c1) c2
  = processChunk JSON_parse st (c1 ++ c2).
Proof.
  destruct st as [acc s]. unfold processChunk.
  cbn [fst snd].
  rewrite <- append_assoc.
  rewrite (split_blank_line_app (acc ++ c1) c2).
  pose proof (split_blank_line_nonempty
                (last (split_blank_line (acc ++ c1)) "" ++ c2)) as Hne.
  rewrite last_app_nonempty by exact Hne.
  rewrite removelast_app by exact Hne.
  rewrite fold_left_app. reflexivity.
Qed.

(** However the stream is cut into chunks, the loop ends as if the
    whole text had come as one chunk. *)
Lemma readLoop_stream_text chunks s :
  readLoop JSON_parse ("", s) chunks
  = processChunk JSON_parse ("", s) (stream_text chunks).
Proof.
  destruct chunks as [|c cs]; [reflexivity|].
  cbn [readLoop fold_left].
  fold (readLoop JSON_parse (processChunk JSON_parse ("", s) c) cs).
  generalize ("", s). revert c.
  induction cs as [|c' cs IH]; intros c st.
  - cbn. now rewrite append_empty_r.
  - cbn [readLoop fold_left].
    fold (readLoop JSON_parse
            (processChunk JSON_parse (processChunk JSON_parse st c) c') cs).
    rewrite processChunk_app.
    rewrite IH. cbn [stream_text fold_right].
    now rewrite append_assoc.
Qed.

Lemma processRecord_malformed s r :
  malformed JSON_parse r -> processRecord JSON_parse s r = s.
Proof.
  intros [Hd Hp]. unfold processRecord.
  now rewrite Hd, Hp.
Qed.

Lemma processRecord_decodes s r e :
  decodes_to JSON_parse r e ->
  processRecord JSON_parse s r = handleStreamEvent s e.
Proof.
  intros [Hd Hp]. unfold processRecord.
  now rewrite Hd, Hp.
Qed.

(** C8: a stream whose text holds a malformed record after any complete
    records [pre] and before any further text [post] is read, however
    it is cut into chunks, to the same buffer and chat state as the
    stream without that record; in particular, with a valid record on
    each side, both are interpreted, in order, and only they. *)
Theorem malformed_record_is_skipped :
  forall s bad,
    one_record bad ->
    malformed JSON_parse bad ->
    (forall pre post chunks chunks',
       on_boundary pre ->
       stream_text chunks = pre ++ frame bad ++ post ->
       stream_text chunks' = pre ++ post ->
       readLoop JSON_parse ("", s) chunks
       = readLoop JSON_parse ("", s) chunks') /\
    (forall r1 e1 r2 e2 chunks,
       one_record r1 -> decodes_to JSON_parse r1 e1 ->
       one_record r2 -> decodes_to JSON_parse r2 e2 ->
       stream_text chunks = frame r1 ++ frame bad ++ frame r2 ->
       readLoop JSON_parse ("", s) chunks =
         ("", handleStreamEvent (handleStreamEvent s e1) e2)).
Proof.
  intros s bad Hone Hbad. split.
  - intros pre post chunks chunks' Hpre Htext Htext'.
    rewrite !readLoop_stream_text, Htext, Htext'.
    unfold processChunk. cbn [fst snd append].
    rewrite (split_framed_record pre bad post Hpre Hone).
    rewrite (split_blank_line_app pre post), Hpre. cbn [append].
    pose proof (split_blank_line_nonempty post) as Hne.
    destruct (split_blank_line post) as [|p ps]; [contradiction|].
    rewrite !last_app_nonempty by discriminate.
    rewrite !removelast_app by discriminate.
    change (removelast (bad :: p :: ps)) with (bad :: removelast (p :: ps)).
    rewrite !fold_left_app. cbn [fold_left].
    rewrite processRecord_malformed by exact Hbad.
    reflexivity.
  - intros r1 e1 r2 e2 chunks H1 D1 H2 D2 Htext.
    assert (Hframes : frame r1 ++ frame bad ++ frame r2
                      = stream_text (map frame [r1; bad; r2])).
    { cbn [map stream_text fold_right]. now rewrite append_empty_r. }
    rewrite readLoop_stream_text, Htext, Hframes.
    unfold processChunk.
    cbn [fst snd append].
    rewrite split_frames by (repeat constructor; assumption).
    cbn [app last removelast fold_left].
    rewrite (processRecord_decodes _ _ _ D1).
    rewrite (processRecord_malformed _ _ Hbad).
    rewrite (processRecord_decodes _ _ _ D2). reflexivity.
Qed.

End DecodeLoop.

(** The three-record stream [data: {A}], [data: {oops], [data: {F}], cut
    inside the first separator and inside the malformed record. *)
Lemma malformed_record_is_skipped_witness :
  readLoop sample_parse ("", asking_Q1)
    [ "data: {A}" ++ String nl "";
      String nl "data: {oo";
      "ps" ++ blank_line ++ "data: {F}" ++ blank_line ]
  = ("", handleStreamEvent
           (handleStreamEvent asking_Q1 (agent_action "t1" 1 None list_tables))
           (agent_finish "t3" "USA" 1)).
Proof.
  exact (proj2 (malformed_record_is_skipped sample_parse asking_Q1
                  "data: {oops" eq_refl (conj eq_refl eq_refl))
           "data: {A}" (agent_action "t1" 1 None list_tables)
           "data: {F}" (agent_finish "t3" "USA" 1)
           [ "data: {A}" ++ String nl "";
             String nl "data: {oo";
             "ps" ++ blank_line ++ "data: {F}" ++ blank_line ]
           eq_refl (conj eq_refl eq_refl)
           eq_refl (conj eq_refl eq_refl)
           eq_refl).
Defined.

(** The scenario of a whole turn: action, observation, finish, complete.
    One completed turn is in [messages], with one observed step and the
    answer; no turn is current. *)
Example whole_turn :
  let s := sendMessage
             sample_parse
             {| messageId := "msg_1"; now := "t0";
                outcome := fetch_body
                  [ frame "data: {A}" ++ "data:";
                    frame " {O}" ++ frame "data: {F}" ++ frame "data: {C}" ]
                  read_done;
                catch_now := "t9" |}
             "Q1" initialState in
  currentMessage s = None /\
  isStreaming s = false /\
  map (fun m => (answer m, status m, map observation (steps m))) (messages s)
    = [ (Some "USA", Status.completed, [Some tables_seen]) ].
Proof. repeat split. Qed.

(* ================================================================== *)
(** * Further properties of the reducer and of event dispatch *)
(* ================================================================== *)

(** ** The history *)

Lemma history_finalized_reducer s a :
  history_finalized s -> history_finalized (chatReducer s a).
Proof.
  unfold history_finalized. intros H.
  assert (Happ : forall m, finalized m = true ->
            Forall (fun m => finalized m = true) (messages s ++ [m])).
  { intros m Hm. apply Forall_app. split; [assumption|].
    constructor; [exact Hm | constructor]. }
  destruct a; cbn; try assumption;
    try (destruct (currentMessage s); cbn;
         first [assumption | now apply Happ]).
  constructor.
Qed.

Lemma history_finalized_op s o :
  history_finalized s -> history_finalized (apply_op s o).
Proof.
  intros H. destruct o; cbn [apply_op].
  - unfold ChatProvider.sendMessage, sendMessage_begin.
    destruct (truthy (trim q)); now apply history_finalized_reducer.
  - now apply history_finalized_reducer.
  - now apply history_finalized_reducer.
  - destruct e; unfold handleStreamEvent; try exact H;
      now apply history_finalized_reducer.
Qed.

Lemma history_finalized_run ops :
  forall s, history_finalized s -> history_finalized (run s ops).
Proof.
  induction ops as [|o ops IH]; intros s Hs; cbn; [exact Hs|].
  apply IH. now apply history_finalized_op.
Qed.

(** X1: every turn in [messages] is finalized: in every state reached from
    the initial state by the public operations and decoded events, each
    turn of the history has status [completed] or [error]. *)
Theorem history_holds_only_finalized_turns :
  forall ops m,
    In m (messages (run initialState ops)) ->
    status m = Status.completed \/ status m = Status.error.
Proof.
  intros ops m Hin.
  assert (H : history_finalized (run initialState ops)).
  { apply history_finalized_run. constructor. }
  unfold history_finalized in H. rewrite Forall_forall in H.
  specialize (H m Hin). unfold finalized in H.
  destruct (status m); cbn in H; try discriminate; auto.
Qed.

Lemma history_holds_only_finalized_turns_witness :
  status {| id := "msg_1"; question := "Q1"; answer := Some "USA";
            steps := []; status := Status.completed; execution_time := None;
            msg_timestamp := "t0"; error_message := None |}
    = Status.completed \/
  status {| id := "msg_1"; question := "Q1"; answer := Some "USA";
            steps := []; status := Status.completed; execution_time := None;
            msg_timestamp := "t0"; error_message := None |}
    = Status.error.
Proof.
  exact (history_holds_only_finalized_turns
           [op_sendMessage "Q1" "msg_1" "t0";
            op_event (agent_finish "t1" "USA" 0)]
           _ (or_introl eq_refl)).
Defined.

Lemma reducer_appends s a :
  a <> CLEAR_MESSAGES ->
  exists suffix,
    messages (chatReducer s a) = (messages s ++ suffix)%list /\
    (length suffix <= 1)%nat.
Proof.
  intros Ha.
  destruct a; cbn; try contradiction;
    try (exists []; rewrite app_nil_r; split; [reflexivity | cbn; lia]);
    destruct (currentMessage s);
    try (exists []; rewrite app_nil_r; split; [reflexivity | cbn; lia]);
    eexists; split; (reflexivity || (cbn; lia)).
Qed.

Lemma op_appends s o :
  is_clear o = false ->
  exists suffix,
    messages (apply_op s o) = (messages s ++ suffix)%list /\
    (length suffix <= 1)%nat.
Proof.
  intros Ho. destruct o; cbn [apply_op]; try discriminate Ho.
  - unfold ChatProvider.sendMessage, sendMessage_begin.
    destruct (truthy (trim q)); now apply reducer_appends.
  - now apply reducer_appends.
  - destruct e; unfold handleStreamEvent;
      try (exists []; rewrite app_nil_r; split; [reflexivity | cbn; lia]);
      now apply reducer_appends.
Qed.

(** X2: without [clearMessages] the history is append-only: any run of
    [sendMessage], [stopStreaming] and events keeps the turns it started
    with, in place, and adds at most one turn per operation. *)
Theorem history_append_only_without_clear :
  forall ops s,
    forallb (fun o => negb (is_clear o)) ops = true ->
    exists suffix,
      messages (run s ops) = (messages s ++ suffix)%list /\
      (length suffix <= length ops)%nat.
Proof.
  induction ops as [|o ops IH]; intros s Hops; cbn.
  - exists []. now rewrite app_nil_r.
  - cbn in Hops. apply andb_prop in Hops. destruct Hops as [Ho Hops].
    apply negb_true_iff in Ho.
    destruct (op_appends s o Ho) as [suf1 [E1 L1]].
    destruct (IH (apply_op s o) Hops) as [suf2 [E2 L2]].
    exists (suf1 ++ suf2)%list. unfold run in E2. rewrite E2, E1.
    rewrite <- app_assoc. split; [reflexivity|].
    rewrite length_app. lia.
Qed.

Lemma history_append_only_without_clear_witness :
  exists suffix,
    messages (run asking_Q1 [op_event (agent_finish "t1" "USA" 0);
                             op_stopStreaming])
      = (messages asking_Q1 ++ suffix)%list /\
    (length suffix <= 2)%nat.
Proof.
  exact (history_append_only_without_clear
           [op_event (agent_finish "t1" "USA" 0); op_stopStreaming]
           asking_Q1 eq_refl).
Defined.

(** ** Observations and steps *)

Lemma update_observation_other n obs step :
  step_number step <> n -> update_observation n obs step = step.
Proof.
  intros Hne. unfold update_observation.
  destruct (step_number step =? n) eqn:E; [|reflexivity].
  apply Z.eqb_eq in E. contradiction.
Qed.

Lemma update_observation_absent n obs l :
  ~ In n (map step_number l) -> map (update_observation n obs) l = l.
Proof.
  induction l as [|x l IH]; intros Hn; cbn; [reflexivity|].
  cbn in Hn. rewrite update_observation_other by tauto.
  rewrite IH by tauto. reflexivity.
Qed.

Lemma update_observation_number n obs step :
  step_number (update_observation n obs step) = step_number step.
Proof.
  unfold update_observation. now destruct (step_number step =? n).
Qed.

Lemma updateStep_unknown_number s n obs :
  ~ In n (current_step_numbers s) -> updateStep s n obs = s.
Proof.
  destruct s as [msgs cur str err]. intros Hn.
  unfold current_step_numbers in Hn. cbn in *.
  destruct cur as [m|]; cbn; [|reflexivity].
  rewrite update_observation_absent by exact Hn.
  destruct m; reflexivity.
Qed.

(** X3: an [agent_observation] whose step number is not among the steps of
    the current turn (or that arrives without a current turn) leaves the
    whole state as it is. *)
Theorem observation_for_unknown_step_is_noop :
  forall s ts n obs,
    ~ In n (current_step_numbers s) ->
    handleStreamEvent s (agent_observation ts n obs) = s.
Proof.
  intros s ts n obs Hn.
  now apply updateStep_unknown_number.
Qed.

Lemma observation_for_unknown_step_is_noop_witness :
  handleStreamEvent asking_Q1 (agent_observation "t1" 7 tables_seen)
  = asking_Q1.
Proof.
  exact (observation_for_unknown_step_is_noop
           asking_Q1 "t1" 7 tables_seen (fun H : False => H)).
Defined.

(** X4: on a turn that has no step numbered [n], an [agent_action] for [n]
    followed by the [agent_observation] for [n] leaves the earlier steps
    as they were and adds one step, with the observation attached. *)
Theorem action_then_observation_completes_step :
  forall s m ts n th act ts' obs,
    currentMessage s = Some m ->
    ~ In n (map step_number (steps m)) ->
    exists m',
      currentMessage
        (handleStreamEvents s [agent_action ts n th act;
                               agent_observation ts' n obs]) = Some m' /\
      steps m' = (steps m ++ [{| step_number := n; thought := th;
                                 action := act; observation := Some obs;
                                 timestamp := ts |}])%list /\
      status m' = Status.processing.
Proof.
  intros s m ts n th act ts' obs Hcur Hn.
  unfold handleStreamEvents. cbn [fold_left].
  unfold_dispatch. rewrite Hcur. cbn.
  eexists. split; [reflexivity|]. cbn. split; [|reflexivity].
  rewrite map_app, update_observation_absent by exact Hn.
  cbn. unfold update_observation. cbn. now rewrite Z.eqb_refl.
Qed.

Lemma action_then_observation_completes_step_witness :
  exists m',
    currentMessage
      (handleStreamEvents asking_Q1
         [agent_action "t1" 1 None list_tables;
          agent_observation "t2" 1 tables_seen]) = Some m' /\
    map observation (steps m') = [Some tables_seen].
Proof.
  destruct (action_then_observation_completes_step
              asking_Q1
              {| id := "msg_1"; question := "Q1"; answer := None; steps := [];
                 status := Status.thinking; execution_time := None;
                 msg_timestamp := "t0"; error_message := None |}
              "t1" 1 None list_tables "t2" tables_seen
              eq_refl (fun H : False => H))
    as [m' [H1 [H2 _]]].
  exists m'. split; [exact H1 | now rewrite H2].
Defined.

Lemma step_events_build_steps es :
  forall s m,
    currentMessage s = Some m ->
    forallb is_step_event es = true ->
    exists m',
      currentMessage (handleStreamEvents s es) = Some m' /\
      map step_number (steps m') =
        (map step_number (steps m) ++ action_numbers es)%list /\
      id m' = id m /\ question m' = question m /\ answer m' = answer m /\
      msg_timestamp m' = msg_timestamp m /\
      messages (handleStreamEvents s es) = messages s /\
      isStreaming (handleStreamEvents s es) = isStreaming s /\
      error (handleStreamEvents s es) = error s.
Proof.
  induction es as [|e es IH]; intros s m Hcur Hes.
  - exists m. cbn. rewrite app_nil_r. repeat split. exact Hcur.
  - cbn in Hes. apply andb_prop in Hes. destruct Hes as [He Hes].
    unfold handleStreamEvents. cbn [fold_left].
    fold (handleStreamEvents (handleStreamEvent s e) es).
    destruct e; try discriminate He.
    + (* agent_action *)
      edestruct (IH (handleStreamEvent s (agent_action ts step_number0 thought0 action0)))
        as [m' [H1 [H2 [H3 [H4 [H5 [H6 [H7 [H8 H9]]]]]]]]];
        [unfold_dispatch; rewrite Hcur; reflexivity | exact Hes |].
      exists m'. split; [exact H1|]. cbn in H2, H3, H4, H5, H6.
      rewrite map_app in H2. cbn in H2. rewrite <- app_assoc in H2.
      repeat split; try assumption.
      * rewrite H7. unfold_dispatch. now rewrite Hcur.
      * rewrite H8. unfold_dispatch. now rewrite Hcur.
      * rewrite H9. unfold_dispatch. now rewrite Hcur.
    + (* agent_observation *)
      edestruct (IH (handleStreamEvent s (agent_observation ts step_number0 observation0)))
        as [m' [H1 [H2 [H3 [H4 [H5 [H6 [H7 [H8 H9]]]]]]]]];
        [unfold_dispatch; rewrite Hcur; reflexivity | exact Hes |].
      exists m'. split; [exact H1|]. cbn in H2, H3, H4, H5, H6.
      rewrite map_map in H2.
      rewrite (map_ext _ step_number
                 (update_observation_number step_number0 observation0)) in H2.
      repeat split; try assumption.
      * rewrite H7. unfold_dispatch. now rewrite Hcur.
      * rewrite H8. unfold_dispatch. now rewrite Hcur.
      * rewrite H9. unfold_dispatch. now rewrite Hcur.
Qed.

(** X5: a run of [agent_action] and [agent_observation] events on a
    current turn adds one step per [agent_action], in delivery order:
    the turn's step numbers afterwards are the ones it had, followed by
    those of the actions; nothing else of the chat state changes. *)
Theorem step_events_add_one_step_per_action :
  forall es s m,
    currentMessage s = Some m ->
    forallb is_step_event es = true ->
    current_step_numbers (handleStreamEvents s es) =
      (map step_number (steps m) ++ action_numbers es)%list /\
    messages (handleStreamEvents s es) = messages s /\
    isStreaming (handleStreamEvents s es) = isStreaming s /\
    error (handleStreamEvents s es) = error s.
Proof.
  intros es s m Hcur Hes.
  destruct (step_events_build_steps es s m Hcur Hes)
    as [m' [H1 [H2 [_ [_ [_ [_ [H7 [H8 H9]]]]]]]]].
  unfold current_step_numbers. rewrite H1. auto.
Qed.

Lemma step_events_add_one_step_per_action_witness :
  current_step_numbers
    (handleStreamEvents asking_Q1
       [agent_action "t1" 1 None list_tables;
        agent_observation "t2" 1 tables_seen;
        agent_action "t3" 4 None list_tables]) = [1; 4].
Proof.
  exact (proj1 (step_events_add_one_step_per_action
                  [agent_action "t1" 1 None list_tables;
                   agent_observation "t2" 1 tables_seen;
                   agent_action "t3" 4 None list_tables]
                  asking_Q1
                  {| id := "msg_1"; question := "Q1"; answer := None;
                     steps := []; status := Status.thinking;
                     execution_time := None; msg_timestamp := "t0";
                     error_message := None |}
                  eq_refl eq_refl)).
Defined.

Lemma run_app s ops ops' : run s (ops ++ ops') = run (run s ops) ops'.
Proof. unfold run. apply fold_left_app. Qed.

Lemma run_events s es : run s (map op_event es) = handleStreamEvents s es.
Proof.
  revert s. induction es as [|e es IH]; intros s; [reflexivity|].
  cbn. apply IH.
Qed.

(** X6: a whole turn.  From any state, [sendMessage] with a non-blank
    question, then any step events, then [agent_finish] and
    [execution_complete], adds exactly one turn to the history: the
    question as given, the answer, status [completed], one step per
    action; afterwards no turn is current, nothing is streaming and no
    error is shown. *)
Theorem whole_turn_adds_one_completed_turn :
  forall s q messageId now es ts final_answer total_steps ts',
    truthy (trim q) = true ->
    forallb is_step_event es = true ->
    let s' := run s (op_sendMessage q messageId now
                       :: map op_event es
                       ++ [op_event (agent_finish ts final_answer total_steps);
                           op_event (execution_complete ts')]) in
    exists m,
      messages s' = (messages s ++ [m])%list /\
      id m = messageId /\ question m = q /\
      answer m = Some final_answer /\
      status m = Status.completed /\
      map step_number (steps m) = action_numbers es /\
      currentMessage s' = None /\
      isStreaming s' = false /\
      error s' = None.
Proof.
  intros s q messageId now es ts ans n ts' Hq Hes s'. subst s'.
  change (op_sendMessage q messageId now :: map op_event es ++ _)
    with ([op_sendMessage q messageId now] ++ map op_event es ++
          [op_event (agent_finish ts ans n); op_event (execution_complete ts')])%list.
  rewrite !run_app, run_events.
  set (s0 := run s [op_sendMessage q messageId now]).
  assert (Hs0 : s0 = startStreaming s q messageId now).
  { subst s0. cbn. unfold ChatProvider.sendMessage, sendMessage_begin.
    now rewrite Hq. }
  destruct (step_events_build_steps es s0 _
              ltac:(rewrite Hs0; reflexivity) Hes)
    as [m' [H1 [H2 [H3 [H4 [H5 [H6 [H7 [H8 H9]]]]]]]]].
  remember (handleStreamEvents s0 es) as S eqn:HS.
  rewrite Hs0 in H7, H9. cbn in H2, H3, H4, H7, H9.
  cbn [run fold_left apply_op].
  unfold handleStreamEvent, setFinalAnswer, completeMessage, chatReducer.
  rewrite H1. cbn.
  eexists. split; [rewrite H7; reflexivity|]. cbn.
  rewrite H2, H3, H4, H9. repeat split.
Qed.

Lemma whole_turn_adds_one_completed_turn_witness :
  exists m,
    messages (run initialState
                [op_sendMessage "Q1" "msg_1" "t0";
                 op_event (agent_action "t1" 1 None list_tables);
                 op_event (agent_finish "t3" "USA" 1);
                 op_event (execution_complete "t4")])
      = [m] /\
    answer m = Some "USA".
Proof.
  destruct (whole_turn_adds_one_completed_turn
              initialState "Q1" "msg_1" "t0"
              [agent_action "t1" 1 None list_tables]
              "t3" "USA" 1 "t4" eq_refl eq_refl)
    as [m [H1 [_ [_ [H4 _]]]]].
  exists m. split; [exact H1 | exact H4].
Defined.

(** X7: finalizing is not idempotent.  While a turn is current, each
    [agent_finish] or [error] event appends a copy of it to the history,
    also when the turn is finalized already: two such events in a row
    leave the turn in the history twice. *)
Theorem second_terminal_event_appends_turn_again :
  forall s m e1 e2,
    currentMessage s = Some m ->
    is_terminal_event e1 = true ->
    is_terminal_event e2 = true ->
    exists m1 m2,
      messages (handleStreamEvents s [e1; e2])
        = (messages s ++ [m1; m2])%list /\
      id m1 = id m /\ id m2 = id m /\
      question m1 = question m /\ question m2 = question m /\
      finalized m1 = true /\ finalized m2 = true /\
      currentMessage (handleStreamEvents s [e1; e2]) = Some m2.
Proof.
  intros s m e1 e2 Hcur H1 H2.
  destruct e1; try discriminate H1; destruct e2; try discriminate H2;
    unfold handleStreamEvents; cbn [fold_left];
    unfold_dispatch; rewrite Hcur; cbn;
    do 2 eexists; rewrite <- app_assoc; cbn; repeat split.
Qed.

Lemma second_terminal_event_appends_turn_again_witness :
  exists m1 m2,
    messages (handleStreamEvents asking_Q1
                [agent_finish "t1" "USA" 0;
                 error_event "t2" (Some "late failure") "late failure" "x"])
      = [m1; m2] /\
    id m1 = "msg_1" /\ id m2 = "msg_1".
Proof.
  destruct (second_terminal_event_appends_turn_again
              asking_Q1
              {| id := "msg_1"; question := "Q1"; answer := None; steps := [];
                 status := Status.thinking; execution_time := None;
                 msg_timestamp := "t0"; error_message := None |}
              (agent_finish "t1" "USA" 0)
              (error_event "t2" (Some "late failure") "late failure" "x")
              eq_refl eq_refl eq_refl)
    as [m1 [m2 [H1 [H2 [H3 _]]]]].
  exists m1, m2. repeat split; assumption.
Defined.

(* ================================================================== *)
(** * Further properties of the decode loop *)
(* ================================================================== *)

(** ** Splitting and joining *)

Lemma concat_cons_head sep c pieces :
  pieces <> [] ->
  String.concat sep (cons_head c pieces) = String c (String.concat sep pieces).
Proof.
  destruct pieces as [|p [|p' ps]]; [contradiction | reflexivity..].
Qed.

(** X12: the split loses nothing: joining the pieces of a text with the
    blank-line separator gives the text back. *)
Theorem split_blank_line_join :
  forall s, String.concat blank_line (split_blank_line s) = s.
Proof.
  induction s as [| c | c c' s IHs IHc] using string_pair_ind;
    try reflexivity.
  rewrite split_blank_line_step.
  destruct (Ascii.eqb c nl && Ascii.eqb c' nl) eqn:Hsep.
  - apply andb_prop in Hsep. destruct Hsep as [Hc Hc'].
    apply Ascii.eqb_eq in Hc, Hc'. subst c c'.
    pose proof (split_blank_line_nonempty s) as Hne.
    destruct (split_blank_line s) as [|p ps] eqn:E; [contradiction|].
    change (String.concat blank_line ("" :: p :: ps))
      with ("" ++ blank_line ++ String.concat blank_line (p :: ps)).
    rewrite IHs. reflexivity.
  - rewrite concat_cons_head by apply split_blank_line_nonempty.
    now rewrite IHc.
Qed.

Lemma split_first_piece c s p ps :
  split_blank_line (String c s) = p :: ps ->
  p = "" \/ exists t, p = String c t.
Proof.
  destruct s as [|c' s].
  - cbn. intros [= <- _]. right. now exists "".
  - rewrite split_blank_line_step.
    destruct (Ascii.eqb c nl && Ascii.eqb c' nl).
    + intros [= <- _]. now left.
    + destruct (split_blank_line (String c' s)) as [|p0 ps0];
        cbn [cons_head]; intros [= <- _]; right; eexists; reflexivity.
Qed.

(** X13: no piece of the split holds a blank line: split again, each
    piece comes back whole. *)
Theorem split_pieces_hold_no_blank_line :
  forall s p, In p (split_blank_line s) -> split_blank_line p = [p].
Proof.
  induction s as [| c | c c' s IHs IHc] using string_pair_ind; intros p.
  - cbn. intros [<- | []]. reflexivity.
  - cbn. intros [<- | []]. reflexivity.
  - rewrite split_blank_line_step.
    destruct (Ascii.eqb c nl && Ascii.eqb c' nl) eqn:Hsep.
    + intros [<- | Hin]; [reflexivity | now apply IHs].
    + destruct (split_blank_line (String c' s)) as [|p0 ps0] eqn:E.
      * now apply split_blank_line_nonempty in E.
      * cbn [cons_head]. intros [<- | Hin].
        -- pose proof (IHc p0 (or_introl eq_refl)) as Hp0.
           destruct (split_first_piece _ _ _ _ E) as [-> | [t ->]].
           ++ reflexivity.
           ++ rewrite split_blank_line_step, Hsep, Hp0. reflexivity.
        -- apply IHc. now right.
Qed.

Lemma split_pieces_hold_no_blank_line_witness :
  split_blank_line "data: {A}" = ["data: {A}"].
Proof.
  exact (split_pieces_hold_no_blank_line
           (frame "data: {A}" ++ "data: {F") "data: {A}"
           (or_introl eq_refl)).
Defined.

Lemma frames_cons r rs : frames (r :: rs) = frame r ++ frames rs.
Proof. reflexivity. Qed.

Lemma split_frames_tail rs tail :
  Forall one_record rs ->
  split_blank_line (frames rs ++ tail) = (rs ++ split_blank_line tail)%list.
Proof.
  induction 1 as [|r rs Hr _ IH]; [reflexivity|].
  rewrite frames_cons, append_assoc, split_leading_frame by exact Hr.
  now rewrite IH.
Qed.

Section DecodeLoopMore.

Variable JSON_parse : string -> option ChatStreamEvent.

(** X8: the cut of the stream into chunks does not matter: two
    deliveries of the same text leave the same buffer and the same chat
    state. *)
Theorem readLoop_independent_of_chunking :
  forall s chunks chunks',
    stream_text chunks = stream_text chunks' ->
    readLoop JSON_parse ("", s) chunks = readLoop JSON_parse ("", s) chunks'.
Proof.
  intros s chunks chunks' H.
  now rewrite !readLoop_stream_text, H.
Qed.

Lemma valid_records_one_record rs es :
  valid_records JSON_parse rs es -> Forall one_record rs.
Proof.
  induction 1 as [|r e rs es [Hr _] _ IH]; constructor; assumption.
Qed.

Lemma fold_processRecord_valid rs es :
  valid_records JSON_parse rs es ->
  forall s,
    fold_left (processRecord JSON_parse) rs s = handleStreamEvents s es.
Proof.
  induction 1 as [|r e rs es [_ Hd] _ IH]; intros s; [reflexivity|].
  cbn [fold_left]. rewrite (processRecord_decodes JSON_parse s r e Hd).
  apply IH.
Qed.

Lemma readLoop_frames_tail s rs es tail chunks :
  valid_records JSON_parse rs es ->
  split_blank_line tail = [tail] ->
  stream_text chunks = frames rs ++ tail ->
  readLoop JSON_parse ("", s) chunks = (tail, handleStreamEvents s es).
Proof.
  intros Hv Htail Htext.
  rewrite readLoop_stream_text, Htext.
  unfold processChunk. cbn [fst snd append].
  rewrite split_frames_tail by (eapply valid_records_one_record; eassumption).
  rewrite Htail, last_last, removelast_last.
  now rewrite (fold_processRecord_valid rs es Hv).
Qed.

(** X9: well-framed valid records are interpreted once each, in the
    order of the stream, however it is chunked; text after the last
    separator that holds no separator itself stays in the buffer and is
    not interpreted. *)
Theorem readLoop_decodes_in_order :
  forall s rs es tail chunks,
    valid_records JSON_parse rs es ->
    split_blank_line tail = [tail] ->
    stream_text chunks = frames rs ++ tail ->
    readLoop JSON_parse ("", s) chunks = (tail, handleStreamEvents s es).
Proof.
  intros s rs es tail chunks. apply readLoop_frames_tail.
Qed.

(** X10: a last record without its blank line is lost.  When the body
    ends, what is left in the buffer is dropped: the call ends in the
    state after the framed records, also when the rest is a valid record;
    when a read fails instead, the failure is reported on that state. *)
Theorem sendMessage_drops_unterminated_tail :
  forall env q s rs es tail chunks ending,
    truthy (trim q) = true ->
    outcome env = fetch_body chunks ending ->
    valid_records JSON_parse rs es ->
    split_blank_line tail = [tail] ->
    stream_text chunks = frames rs ++ tail ->
    let decoded :=
      handleStreamEvents (startStreaming s q (messageId env) (now env)) es in
    sendMessage JSON_parse env q s =
      match ending with
      | read_done => decoded
      | read_throws thrown => on_catch decoded thrown (catch_now env)
      end.
Proof.
  intros env q s rs es tail chunks ending Hq Hout Hv Htail Htext decoded.
  unfold sendMessage. rewrite Hq, Hout.
  rewrite (readLoop_frames_tail _ rs es tail chunks Hv Htail Htext).
  reflexivity.
Qed.

(** A record the loop body ignores is as good as absent from the
    stream. *)
Lemma ignored_record_is_skipped bad :
  one_record bad ->
  (forall s, processRecord JSON_parse s bad = s) ->
  forall s pre post chunks chunks',
    on_boundary pre ->
    stream_text chunks = pre ++ frame bad ++ post ->
    stream_text chunks' = pre ++ post ->
    readLoop JSON_parse ("", s) chunks = readLoop JSON_parse ("", s) chunks'.
Proof.
  intros Hone Hbad s pre post chunks chunks' Hpre Htext Htext'.
  rewrite !readLoop_stream_text, Htext, Htext'.
  unfold processChunk. cbn [fst snd append].
  rewrite (split_framed_record pre bad post Hpre Hone).
  rewrite (split_blank_line_app pre post), Hpre. cbn [append].
  pose proof (split_blank_line_nonempty post) as Hne.
  destruct (split_blank_line post) as [|p ps]; [contradiction|].
  rewrite !last_app_nonempty by discriminate.
  rewrite !removelast_app by discriminate.
  change (removelast (bad :: p :: ps)) with (bad :: removelast (p :: ps)).
  rewrite !fold_left_app. cbn [fold_left].
  now rewrite Hbad.
Qed.

(** X11: a record that does not begin with the data marker is ignored,
    whatever it holds: a comment or an event-name line before the data
    line, or a data line after a stray newline, makes the loop pass over
    the whole record, valid payload or not. *)
Theorem unmarked_record_is_ignored :
  forall s r pre post chunks chunks',
    one_record r ->
    startsWith r "data:" = false ->
    on_boundary pre ->
    stream_text chunks = pre ++ frame r ++ post ->
    stream_text chunks' = pre ++ post ->
    readLoop JSON_parse ("", s) chunks = readLoop JSON_parse ("", s) chunks'.
Proof.
  intros s r pre post chunks chunks' Hone Hr.
  apply ignored_record_is_skipped; [exact Hone|].
  intros s0. unfold processRecord. now rewrite Hr.
Qed.

End DecodeLoopMore.

Lemma readLoop_decodes_in_order_witness :
  readLoop sample_parse ("", asking_Q1)
    [ "data: {A}" ++ String nl ""; String nl "data: {F}" ]
  = ("data: {F}",
     handleStreamEvents asking_Q1 [agent_action "t1" 1 None list_tables]).
Proof.
  apply (readLoop_decodes_in_order sample_parse asking_Q1
           ["data: {A}"] [agent_action "t1" 1 None list_tables]
           "data: {F}"
           [ "data: {A}" ++ String nl ""; String nl "data: {F}" ]).
  - constructor; [|constructor]. repeat split.
  - reflexivity.
  - reflexivity.
Defined.

Lemma readLoop_independent_of_chunking_witness :
  readLoop sample_parse ("", asking_Q1) [frame "data: {A}"]
  = readLoop sample_parse ("", asking_Q1)
      ["da"; "ta: {A}" ++ String nl ""; String nl ""].
Proof.
  exact (readLoop_independent_of_chunking sample_parse asking_Q1
           [frame "data: {A}"]
           ["da"; "ta: {A}" ++ String nl ""; String nl ""] eq_refl).
Defined.

Lemma sendMessage_drops_unterminated_tail_witness :
  sendMessage sample_parse
    {| messageId := "msg_1"; now := "t0";
       outcome := fetch_body [frame "data: {A}" ++ "data: {F}"] read_done;
       catch_now := "t9" |}
    "Q1" initialState
  = handleStreamEvents asking_Q1 [agent_action "t1" 1 None list_tables].
Proof.
  apply (sendMessage_drops_unterminated_tail sample_parse
           {| messageId := "msg_1"; now := "t0";
              outcome := fetch_body [frame "data: {A}" ++ "data: {F}"]
                                    read_done;
              catch_now := "t9" |}
           "Q1" initialState
           ["data: {A}"] [agent_action "t1" 1 None list_tables]
           "data: {F}" [frame "data: {A}" ++ "data: {F}"] read_done).
  - reflexivity.
  - reflexivity.
  - constructor; [|constructor]. repeat split.
  - reflexivity.
  - reflexivity.
Defined.

(** A valid data line that follows three newlines instead of two is
    passed over. *)
Lemma unmarked_record_is_ignored_witness :
  readLoop sample_parse ("", asking_Q1)
    [ frame "data: {A}" ++ frame (String nl "data: {F}") ]
  = readLoop sample_parse ("", asking_Q1) [ frame "data: {A}" ].
Proof.
  exact (unmarked_record_is_ignored sample_parse asking_Q1
           (String nl "data: {F}") (frame "data: {A}") ""
           [ frame "data: {A}" ++ frame (String nl "data: {F}") ]
           [ frame "data: {A}" ]
           eq_refl eq_refl eq_refl eq_refl eq_refl).
Defined.

(* ================================================================== *)
(** * Blank questions, failed requests and the input box *)
(* ================================================================== *)

Lemma strip_white_space_shorter s r :
  strip_white_space s = Some r -> (String.length r < String.length s)%nat.
Proof.
  destruct s as [|c1 [|c2 [|c3 s3]]]; cbn;
    repeat match goal with
           | |- context [if ?b then _ else _] => destruct b
           end;
    intros [= <-]; cbn; lia.
Qed.

Ltac white_space_cases s :=
  let c1 := fresh "c" in let c2 := fresh "c" in let c3 := fresh "c" in
  let s1 := fresh "s" in let s2 := fresh "s" in let s3 := fresh "s" in
  let E1 := fresh "E" in let E2 := fresh "E" in let E3 := fresh "E" in
  destruct s as [|c1 s1]; [reflexivity|];
  destruct (is_white_space c1) eqn:E1;
  [ | destruct s1 as [|c2 s2];
      [ | destruct (is_white_space2 c1 c2) eqn:E2;
          [ | destruct s2 as [|c3 s3];
              [ | destruct (is_white_space3 c1 c2 c3) eqn:E3 ] ] ] ];
  cbn [trimStart all_white_space strip_white_space];
  rewrite ?E1, ?E2, ?E3; reflexivity.

Lemma trimStart_strip s :
  trimStart s = match strip_white_space s with
                | Some r => trimStart r
                | None => s
                end.
Proof. white_space_cases s. Qed.

Lemma all_white_space_strip s :
  all_white_space s = match s with
                      | EmptyString => true
                      | String _ _ =>
                          match strip_white_space s with
                          | Some r => all_white_space r
                          | None => false
                          end
                      end.
Proof. white_space_cases s. Qed.

Lemma strip_white_space_app p r w :
  strip_white_space p = Some r ->
  strip_white_space (p ++ w) = Some (r ++ w).
Proof.
  destruct p as [|c1 [|c2 [|c3 s3]]]; cbn [strip_white_space append];
    repeat match goal with
           | |- context [if ?b then _ else _] => destruct b eqn:?
           end; try discriminate; try (intros [= <-]; reflexivity).
  all: destruct w as [|d1 [|d2 w]]; cbn [strip_white_space append];
    try discriminate.
Qed.

(** Induction on the length of a text. *)
Lemma string_length_ind (P : string -> Prop) :
  (forall s, (forall t, (String.length t < String.length s)%nat -> P t) -> P s) ->
  forall s, P s.
Proof.
  intros H s.
  assert (Hn : forall n t, (String.length t < n)%nat -> P t).
  { induction n as [|n IH]; intros t Ht; [lia|].
    apply H. intros u Hu. apply IH. lia. }
  apply (Hn (S (String.length s))). lia.
Qed.

Lemma trimStart_all_white_space q :
  all_white_space q = true -> trimStart q = "".
Proof.
  induction q as [q IH] using string_length_ind.
  rewrite all_white_space_strip, trimStart_strip.
  destruct q as [|c q]; [reflexivity|].
  destruct (strip_white_space (String c q)) as [r|] eqn:E; [|discriminate].
  apply IH. now apply strip_white_space_shorter.
Qed.

Lemma trimStart_white_space q :
  all_white_space (trimStart q) = true -> all_white_space q = true.
Proof.
  induction q as [q IH] using string_length_ind.
  rewrite trimStart_strip, (all_white_space_strip q).
  destruct q as [|c q]; [reflexivity|].
  destruct (strip_white_space (String c q)) as [r|] eqn:E.
  - apply IH. now apply strip_white_space_shorter.
  - rewrite all_white_space_strip, E. discriminate.
Qed.

Lemma trimStart_stripped q : strip_white_space (trimStart q) = None.
Proof.
  induction q as [q IH] using string_length_ind.
  rewrite trimStart_strip.
  destruct (strip_white_space q) as [r|] eqn:E; [|exact E].
  apply IH. now apply strip_white_space_shorter.
Qed.

Lemma trimEnd_empty s : trimEnd s = "" -> all_white_space s = true.
Proof.
  destruct s as [|c s]; [reflexivity|].
  cbn [trimEnd]. now destruct (all_white_space (String c s)).
Qed.

Lemma trimEnd_split s :
  exists w, s = trimEnd s ++ w /\ all_white_space w = true.
Proof.
  induction s as [|c s [w [Hs Hw]]]; [now exists ""|].
  cbn [trimEnd]. destruct (all_white_space (String c s)) eqn:E.
  - now exists (String c s).
  - exists w. cbn. now rewrite <- Hs.
Qed.

Lemma all_white_space_app a b :
  all_white_space a = true -> all_white_space b = true ->
  all_white_space (a ++ b) = true.
Proof.
  induction a as [a IH] using string_length_ind. intros Ha Hb.
  destruct a as [|c a]; [exact Hb|].
  rewrite all_white_space_strip in Ha.
  destruct (strip_white_space (String c a)) as [r|] eqn:E; [|discriminate].
  rewrite all_white_space_strip. cbn [append].
  change (String c (a ++ b)) with (String c a ++ b).
  rewrite (strip_white_space_app _ _ b E).
  apply IH; [now apply strip_white_space_shorter | exact Ha | exact Hb].
Qed.

Lemma trimEnd_idempotent s : trimEnd (trimEnd s) = trimEnd s.
Proof.
  induction s as [|c s IH]; [reflexivity|].
  cbn [trimEnd]. destruct (all_white_space (String c s)) eqn:E; [reflexivity|].
  cbn [trimEnd]. rewrite IH.
  destruct (all_white_space (String c (trimEnd s))) eqn:E'; [|reflexivity].
  destruct (trimEnd_split s) as [w [Hs Hw]].
  pose proof (all_white_space_app _ _ E' Hw) as H.
  cbn [append] in H. rewrite <- Hs in H. congruence.
Qed.

Lemma trimEnd_stripped t :
  strip_white_space t = None -> strip_white_space (trimEnd t) = None.
Proof.
  intros Ht. destruct (trimEnd_split t) as [w [Hs _]].
  destruct (strip_white_space (trimEnd t)) as [r|] eqn:E; [|reflexivity].
  apply (strip_white_space_app _ _ w) in E. rewrite <- Hs in E. congruence.
Qed.

Lemma trim_idempotent q : trim (trim q) = trim q.
Proof.
  unfold trim.
  rewrite (trimStart_strip (trimEnd (trimStart q))).
  rewrite trimEnd_stripped by apply trimStart_stripped.
  apply trimEnd_idempotent.
Qed.

(** A text trims to nothing exactly when it is white space only. *)
Lemma trim_empty_iff q : truthy (trim q) = false <-> all_white_space q = true.
Proof.
  split.
  - intros H. apply trimStart_white_space, trimEnd_empty.
    unfold trim in H. now destruct (trimEnd (trimStart q)).
  - intros H. unfold trim. now rewrite trimStart_all_white_space.
Qed.

Section Requests.

Variable JSON_parse : string -> option ChatStreamEvent.

(** X14: a question of white space only (the empty one included; any
    of the characters [trim] removes, such as U+00A0 or U+2003) is
    refused before any request: whatever the environment would deliver,
    the call only dispatches [SET_ERROR] with 'Question cannot be empty';
    with no turn current, the history and the (absent) turn stay as they
    are and [isStreaming] is false. *)
Theorem sendMessage_blank_question :
  forall env q s,
    all_white_space q = true ->
    sendMessage JSON_parse env q s = setError s "Question cannot be empty" /\
    error (sendMessage JSON_parse env q s) = Some "Question cannot be empty" /\
    isStreaming (sendMessage JSON_parse env q s) = false /\
    (currentMessage s = None ->
     messages (sendMessage JSON_parse env q s) = messages s /\
     currentMessage (sendMessage JSON_parse env q s) = None).
Proof.
  intros env q s Hq. apply trim_empty_iff in Hq.
  unfold sendMessage. rewrite Hq. repeat split.
  - unfold_dispatch. now rewrite H.
  - unfold_dispatch. now rewrite H.
Qed.

(** X15: a request that fails before any body is read ends the turn at
    once.  For a non-blank question, when [fetch] rejects with an [Error]
    of non-empty message, or answers with a status that is not ok, the
    turn just started is put in the history with status [error] and the
    message (for a status: 'HTTP error! status: ' and the code), which is
    also the top-level error; it stays current and nothing is streaming.
    When what is thrown is no [Error], the text is 'Failed to connect to
    the server'. *)
Theorem sendMessage_failed_request :
  forall env q s,
    truthy (trim q) = true ->
    (forall m, truthy m = true ->
       outcome env = fetch_throws (Some m) ->
       failure_recorded s (sendMessage JSON_parse env q s)
                        q (messageId env) (now env) m) /\
    (outcome env = fetch_throws None ->
       failure_recorded s (sendMessage JSON_parse env q s)
                        q (messageId env) (now env)
                        "Failed to connect to the server") /\
    (forall code,
       outcome env = fetch_not_ok code ->
       failure_recorded s (sendMessage JSON_parse env q s)
                        q (messageId env) (now env)
                        ("HTTP error! status: " ++ toString code)).
Proof.
  intros env q s Hq. unfold sendMessage, failure_recorded. rewrite Hq.
  repeat split; intros; rewrite ?H, ?H0;
    unfold on_catch, errorMessage; cbn; rewrite ?H; reflexivity.
Qed.

End Requests.

Lemma sendMessage_blank_question_witness :
  error (sendMessage sample_parse
           {| messageId := "msg_1"; now := "t0";
              outcome := fetch_body [frame "data: {A}"] read_done;
              catch_now := "t9" |}
           (no_break_space ++ em_space) initialState)
  = Some "Question cannot be empty".
Proof.
  exact (proj1 (proj2 (sendMessage_blank_question sample_parse
           {| messageId := "msg_1"; now := "t0";
              outcome := fetch_body [frame "data: {A}"] read_done;
              catch_now := "t9" |}
           (no_break_space ++ em_space) initialState eq_refl))).
Defined.

Lemma sendMessage_failed_request_witness :
  failure_recorded initialState
    (sendMessage sample_parse
       {| messageId := "msg_1"; now := "t0";
          outcome := fetch_not_ok 503; catch_now := "t9" |}
       "Q1" initialState)
    "Q1" "msg_1" "t0" "HTTP error! status: 503".
Proof.
  exact (proj2 (proj2 (sendMessage_failed_request sample_parse
           {| messageId := "msg_1"; now := "t0";
              outcome := fetch_not_ok 503; catch_now := "t9" |}
           "Q1" initialState eq_refl)) 503 eq_refl).
Defined.

(** X16: through the input box the controller never sees a blank or an
    untrimmed question.  With the controller's [sendMessage] registered,
    [handleSubmit] either leaves state and text as they are (blank text,
    or a turn streaming) or starts a turn for the trimmed text and
    empties the box; the controller's 'Question cannot be empty' branch
    is not taken, so the top-level error afterwards is the one before or
    none, and the question of a started turn is trimmed already. *)
Theorem handleSubmit_starts_trimmed_turn_or_nothing :
  forall q s messageId now,
    let submitted :=
      MessageInput.handleSubmit
        (fun q => sendMessage_begin q messageId now) q s in
    submitted =
      (if negb (truthy (trim q)) || isStreaming s then (s, q)
       else (startStreaming s (trim q) messageId now, "")) /\
    (error (fst submitted) = error s \/ error (fst submitted) = None) /\
    (fst submitted = s \/
     exists m, currentMessage (fst submitted) = Some m /\
               question m = trim q /\ trim (question m) = question m /\
               truthy (question m) = true).
Proof.
  intros q s messageId now submitted. subst submitted.
  unfold MessageInput.handleSubmit.
  destruct (truthy (trim q)) eqn:Hq; cbn [negb orb];
    [|repeat split; now left].
  destruct (isStreaming s); [repeat split; now left|].
  unfold sendMessage_begin. rewrite trim_idempotent, Hq.
  split; [reflexivity|]. split; [now right|].
  right. eexists. split; [reflexivity|]. cbn.
  split; [reflexivity|]. split; [apply trim_idempotent | exact Hq].
Qed.

(** A question of a no-break space and an em space is blank: to the
    controller, which reports it, and to the input box, which does
    nothing; white space of that kind around a question is trimmed. *)
Example unicode_blank_question :
  sendMessage_begin (no_break_space ++ em_space) "msg_1" "t0" initialState
    = setError initialState "Question cannot be empty" /\
  MessageInput.handleSubmit (fun q => sendMessage_begin q "msg_1" "t0")
    (no_break_space ++ em_space) initialState
    = (initialState, no_break_space ++ em_space) /\
  trim (no_break_space ++ " Q1 " ++ em_space) = "Q1".
Proof. repeat split. Qed.

(* ================================================================== *)
(** * The EventSource service and its controller *)
(* ================================================================== *)

Module ServiceFacts.
Import StreamingService EventSourceService.

Lemma backoff_step svc :
  backoff_in_bounds svc -> backoff_in_bounds (fst (onerror svc)).
Proof.
  unfold backoff_in_bounds, onerror, handleConnectionError.
  intros [Hb Ht].
  destruct (reconnectAttempts (core svc) <? maxReconnectAttempts) eqn:E; cbn.
  - apply Z.ltb_lt in E. unfold maxReconnectAttempts in E.
    split; [lia|]. intros d [= <-].
    assert (Ha : reconnectAttempts (core svc) = 0
                 \/ reconnectAttempts (core svc) = 1
                 \/ reconnectAttempts (core svc) = 2) by lia.
    destruct Ha as [-> | [-> | ->]]; cbn; auto.
  - split; assumption.
Qed.

Lemma backoff_service_step JSON_parse st o :
  backoff_in_bounds (fst st) ->
  backoff_in_bounds (fst (service_step JSON_parse st o)).
Proof.
  intros H. pose proof H as [Hb Ht].
  unfold service_step. destruct o; cbn [fst snd].
  - unfold backoff_in_bounds. cbn. split; [lia | exact Ht].
  - unfold onmessage.
    destruct (JSON_parse data) as [ev|]; [|exact H].
    destruct ev; unfold backoff_in_bounds; cbn;
      (split; [lia | (exact Ht || discriminate)]).
  - pose proof (backoff_step _ H) as H'.
    destruct (onerror (fst st)). exact H'.
  - unfold timer_fires, reconnect, startStream.
    destruct (currentQuestion (core (fst st))) as [q|]; [|exact H].
    destruct (truthy q); [|exact H].
    destruct (sendQuestion post); exact H.
  - unfold startStream. destruct (sendQuestion post); exact H.
  - unfold backoff_in_bounds. cbn. split; [exact Hb | discriminate].
Qed.

(** X17: the reconnection counter stays between 0 and the maximum of 3 in
    every state the service reaches, and a pending reconnection timer
    always has a delay of 1000, 2000 or 4000 ms: the cap of 10000 ms is
    never applied. *)
Theorem backoff_bounded_in_every_service_state :
  forall JSON_parse ops,
    let svc := fst (service_run JSON_parse ops) in
    0 <= reconnectAttempts (core svc) <= 3 /\
    forall d, reconnectTimeout (core svc) = Some d ->
              d = 1000 \/ d = 2000 \/ d = 4000.
Proof.
  intros JSON_parse ops svc.
  assert (H : backoff_in_bounds svc).
  { subst svc. unfold service_run.
    assert (H0 : backoff_in_bounds (fst (new_service, @nil Call))).
    { split; cbn; [lia | discriminate]. }
    revert H0. generalize (new_service, @nil Call).
    induction ops as [|o ops IH]; intros st H0; cbn; [exact H0|].
    apply IH. now apply backoff_service_step. }
  exact H.
Qed.

Lemma backoff_bounded_in_every_service_state_witness :
  reconnectTimeout
    (core (fst (service_run sample_parse
                  [sv_startStream "Q1" post_ok; sv_error; sv_error])))
  = Some 2000.
Proof.
  destruct (proj2 (backoff_bounded_in_every_service_state sample_parse
                     [sv_startStream "Q1" post_ok; sv_error; sv_error])
              2000 eq_refl) as [H | [H | H]].
  - discriminate H.
  - reflexivity.
  - discriminate H.
Defined.

Section ListenerFacts.

Variable JSON_parse : string -> option ChatStreamEvent.

(** X18: the maximum counts failures in a row only.  Whatever the
    counter was, once the connection opens or a message parses, the next
    connection error is attempt 1 of 3 again, retried after 1000 ms. *)
Theorem success_resets_backoff :
  forall svc,
    (let svc1 := fst (onopen svc) in
     snd (onerror svc1) =
       [onStatusChange ConnectionStatus.connecting
          (Some "Reconnecting... (1/3)")] /\
     reconnectTimeout (core (fst (onerror svc1))) = Some 1000) /\
    (forall data at_ ev,
       JSON_parse data = Some ev ->
       let svc1 := fst (onmessage JSON_parse svc data at_) in
       snd (onerror svc1) =
         [onStatusChange ConnectionStatus.connecting
            (Some "Reconnecting... (1/3)")] /\
       reconnectTimeout (core (fst (onerror svc1))) = Some 1000).
Proof.
  intros svc. split; [split; reflexivity|].
  intros data at_ ev Hev. unfold onmessage. rewrite Hev.
  destruct ev; split; reflexivity.
Qed.

(** X19: on this path a payload that does not parse is not skipped: the
    listener hands the controller a client error event, 'Failed to parse
    server message', and does not reset the counter; a current turn is
    thereby put in the history with status [error], the text becomes the
    top-level error, streaming ends and the step cache is emptied. *)
Theorem unparsable_message_fails_the_turn :
  forall svc c data at_ m,
    JSON_parse data = None ->
    currentMessage (StreamingChat.chat c) = Some m ->
    let (svc', calls) := onmessage JSON_parse svc data at_ in
    let c' := StreamingChat.deliver_all c calls in
    svc' = svc /\
    (exists m',
       messages (StreamingChat.chat c')
         = (messages (StreamingChat.chat c) ++ [m'])%list /\
       id m' = id m /\ status m' = Status.error /\
       error_message m' = Some "Failed to parse server message") /\
    error (StreamingChat.chat c') = Some "Failed to parse server message" /\
    isStreaming (StreamingChat.chat c') = false /\
    StreamingChat.currentStepsRef c' = [].
Proof.
  intros svc c data at_ m Hparse Hcur.
  unfold onmessage. rewrite Hparse. cbn.
  unfold_dispatch. rewrite Hcur. cbn.
  split; [reflexivity|]. split; [|repeat split].
  eexists. repeat split.
Qed.

(** X20: an [error] event of the producer reaches the controller twice,
    as sent and as a client error with the same message; with a turn
    current, both put it in the history, so the failed turn is there
    twice. *)
Theorem server_error_event_is_recorded_twice :
  forall svc c data at_ m ts message error_message error_type,
    JSON_parse data = Some (error_event ts message error_message error_type) ->
    truthy error_message = true ->
    currentMessage (StreamingChat.chat c) = Some m ->
    let calls := snd (onmessage JSON_parse svc data at_) in
    let c' := StreamingChat.deliver_all c calls in
    calls = [onEvent (error_event ts message error_message error_type);
             onEvent (error_event at_ None error_message "client_error")] /\
    exists m1 m2,
      messages (StreamingChat.chat c')
        = (messages (StreamingChat.chat c) ++ [m1; m2])%list /\
      id m1 = id m /\ id m2 = id m /\
      status m1 = Status.error /\ status m2 = Status.error /\
      error (StreamingChat.chat c') = Some error_message.
Proof.
  intros svc c data at_ m ts msg em et Hparse Hem Hcur calls c'.
  subst c' calls. unfold onmessage. rewrite Hparse. cbn.
  rewrite Hem. split; [reflexivity|].
  unfold_dispatch. rewrite Hcur. cbn. rewrite Hem. cbn.
  do 2 eexists. rewrite <- app_assoc. repeat split.
Qed.

(** X23: [execution_complete] ends the connection: the controller gets
    the event and then the status [disconnected]; the chat state is the
    one [COMPLETE_MESSAGE] gives, and the service holds no connection, no
    question and no timer, with the counter at 0. *)
Theorem execution_complete_closes_connection :
  forall svc c data at_ ts,
    JSON_parse data = Some (execution_complete ts) ->
    let (svc', calls) := onmessage JSON_parse svc data at_ in
    calls = [onEvent (execution_complete ts);
             onStatusChange ConnectionStatus.disconnected None] /\
    StreamingChat.chat (StreamingChat.deliver_all c calls)
      = completeMessage (StreamingChat.chat c) /\
    svc' = new_service.
Proof.
  intros svc c data at_ ts Hparse. unfold onmessage. rewrite Hparse.
  repeat split.
Qed.

End ListenerFacts.

(** X21: a question whose POST fails is recorded twice, however it
    fails.  [startStream] reports the failure through the status callback
    and rejects, and [sendMessage] reports what was thrown again: the turn
    just started is in the history two times, with status [error], first
    with the text of the status callback, then with the text of the
    [catch], which is also the top-level error; the service still holds
    the connection it opened and the question.  When what is thrown is an
    [Error] with a non-empty message, both texts are that message. *)
Theorem failed_post_is_recorded_twice :
  forall svc c q messageId now post thrown,
    truthy (trim q) = true ->
    sendQuestion post = Some thrown ->
    let (svc', c') := StreamingChat.sendMessage svc c q messageId now post in
    let reported :=
      or_default (Some (match thrown with
                        | Some m => m
                        | None => "Failed to start stream"
                        end)) "Connection error occurred" in
    let caught := match thrown with
                  | Some m => m
                  | None => "Failed to send message"
                  end in
    let failed text := {| id := messageId; question := q; answer := None;
                          steps := []; status := Status.error;
                          execution_time := None; msg_timestamp := now;
                          error_message := Some text |} in
    messages (StreamingChat.chat c')
      = (messages (StreamingChat.chat c)
           ++ [failed reported; failed caught])%list /\
    currentMessage (StreamingChat.chat c') = Some (failed caught) /\
    error (StreamingChat.chat c') = Some caught /\
    isStreaming (StreamingChat.chat c') = false /\
    eventSource svc' = true /\
    currentQuestion (core svc') = Some q /\
    (forall text, thrown = Some text -> truthy text = true ->
                  reported = text /\ caught = text).
Proof.
  intros svc c q messageId now post thrown Hq Hpost.
  unfold StreamingChat.sendMessage, startStream. rewrite Hq, Hpost. cbn.
  rewrite <- app_assoc. repeat (split; [reflexivity|]).
  intros text [= ->] Htext. cbn. now rewrite Htext.
Qed.

(** X22: stopping prevents any reconnection.  After the controller's
    [stopStreaming] the service holds no connection, no timer and no
    question, so a timer that still fires does nothing, whatever the
    network would answer; the chat state is untouched by the call and
    the step cache is empty.  The counter is not reset. *)
Theorem stopStreaming_prevents_reconnection :
  forall svc c post,
    let (svc', c') := StreamingChat.stopStreaming svc c in
    timer_fires svc' post = (svc', []) /\
    reconnect svc' post = (svc', []) /\
    eventSource svc' = false /\
    reconnectTimeout (core svc') = None /\
    currentQuestion (core svc') = None /\
    reconnectAttempts (core svc') = reconnectAttempts (core svc) /\
    StreamingChat.chat c' = StreamingChat.chat c /\
    StreamingChat.currentStepsRef c' = [].
Proof.
  intros svc c post. cbn. repeat split.
Qed.

Lemma success_resets_backoff_witness :
  reconnectAttempts (core failing_service) = 3 /\
  snd (onerror (fst (onmessage sample_parse failing_service "{A}" "t5"))) =
    [onStatusChange ConnectionStatus.connecting
       (Some "Reconnecting... (1/3)")].
Proof.
  split; [reflexivity|].
  exact (proj1 (proj2 (success_resets_backoff sample_parse failing_service)
                  "{A}" "t5" _ eq_refl)).
Defined.

Lemma unparsable_message_fails_the_turn_witness :
  error (StreamingChat.chat
           (StreamingChat.deliver_all cached_Q1
              (snd (onmessage sample_parse new_service "{oops" "t5"))))
  = Some "Failed to parse server message".
Proof.
  exact (proj1 (proj2 (proj2
           (unparsable_message_fails_the_turn sample_parse new_service
              cached_Q1 "{oops" "t5"
              {| id := "msg_1"; question := "Q1"; answer := None;
                 steps := []; status := Status.thinking;
                 execution_time := None; msg_timestamp := "t0";
                 error_message := None |}
              eq_refl eq_refl)))).
Defined.

Lemma server_error_event_is_recorded_twice_witness :
  length (messages
            (StreamingChat.chat
               (StreamingChat.deliver_all cached_Q1
                  (snd (onmessage sample_parse_E new_service "{E}" "t6")))))
  = 2%nat.
Proof.
  destruct (proj2 (server_error_event_is_recorded_twice sample_parse_E
                     new_service cached_Q1 "{E}" "t6"
                     {| id := "msg_1"; question := "Q1"; answer := None;
                        steps := []; status := Status.thinking;
                        execution_time := None; msg_timestamp := "t0";
                        error_message := None |}
                     "t5" None "database is down" "server"
                     eq_refl eq_refl eq_refl))
    as [m1 [m2 [H _]]].
  exact (f_equal (@length ChatMessage) H).
Defined.

Lemma execution_complete_closes_connection_witness :
  fst (onmessage sample_parse failing_service "{C}" "t5") = new_service.
Proof.
  exact (proj2 (proj2
           (execution_complete_closes_connection sample_parse
              failing_service cached_Q1 "{C}" "t5" "t4" eq_refl))).
Defined.

Lemma failed_post_is_recorded_twice_witness :
  map error_message
    (messages
       (StreamingChat.chat
          (snd (StreamingChat.sendMessage new_service
                  {| StreamingChat.currentStepsRef := [];
                     StreamingChat.chat := initialState |}
                  "Q1" "msg_1" "t0"
                  (post_not_ok 500 "Internal Server Error")))))
  = [Some "HTTP 500: Internal Server Error";
     Some "HTTP 500: Internal Server Error"].
Proof.
  exact (f_equal (map error_message)
           (proj1 (failed_post_is_recorded_twice new_service
                     {| StreamingChat.currentStepsRef := [];
                        StreamingChat.chat := initialState |}
                     "Q1" "msg_1" "t0"
                     (post_not_ok 500 "Internal Server Error")
                     (Some "HTTP 500: Internal Server Error")
                     eq_refl eq_refl))).
Defined.

(** The same when [fetch] rejects with something that is no [Error]:
    two entries, with the two fallback texts. *)
Example failed_post_without_error_object :
  map error_message
    (messages
       (StreamingChat.chat
          (snd (StreamingChat.sendMessage new_service
                  {| StreamingChat.currentStepsRef := [];
                     StreamingChat.chat := initialState |}
                  "Q1" "msg_1" "t0" (post_rejects None)))))
  = [Some "Failed to start stream"; Some "Failed to send message"].
Proof. reflexivity. Qed.

End ServiceFacts.

(* ================================================================== *)
(** * The two controllers *)
(* ================================================================== *)

Module ControllerFacts.
Import StreamingChat.

Lemma map_get_set_same k v m : map_get k (map_set k v m) = Some v.
Proof.
  induction m as [|[k' v'] m IH]; cbn.
  - now rewrite Z.eqb_refl.
  - destruct (k' =? k) eqn:E; cbn.
    + now rewrite Z.eqb_refl.
    + now rewrite E.
Qed.

Lemma map_get_set_other k k' v m :
  k <> k' -> map_get k' (map_set k v m) = map_get k' m.
Proof.
  intros Hne. induction m as [|[k0 v0] m IH]; cbn.
  - destruct (k =? k') eqn:E; [apply Z.eqb_eq in E; contradiction|].
    reflexivity.
  - destruct (k0 =? k) eqn:E; cbn.
    + apply Z.eqb_eq in E. subst k0.
      destruct (k =? k') eqn:E'; [apply Z.eqb_eq in E'; contradiction|].
      reflexivity.
    + destruct (k0 =? k'); [reflexivity | exact IH].
Qed.

Lemma map_get_set_covered k k' v m :
  map_get k' m <> None -> map_get k' (map_set k v m) <> None.
Proof.
  intros H. destruct (Z.eq_dec k k') as [-> | Hne].
  - rewrite map_get_set_same. discriminate.
  - now rewrite map_get_set_other.
Qed.

Lemma numbers_updateStep s n obs :
  current_step_numbers (updateStep s n obs) = current_step_numbers s.
Proof.
  unfold current_step_numbers, updateStep. cbn.
  destruct (currentMessage s) as [m|] eqn:E; cbn; [|now rewrite E].
  rewrite map_map. apply map_ext. apply update_observation_number.
Qed.

Lemma numbers_addStep s step n :
  In n (current_step_numbers (addStep s step)) ->
  n = step_number step \/ In n (current_step_numbers s).
Proof.
  unfold current_step_numbers, addStep. cbn.
  destruct (currentMessage s) as [m|] eqn:E; cbn; [|now rewrite E].
  rewrite map_app, in_app_iff. cbn. intuition.
Qed.

(** On any event but [error], the controller on the service changes the
    chat state as the fetch-based one does, and keeps its cache in step
    with the turn. *)
Lemma controllers_agree_step c e :
  cache_covers_turn c ->
  is_error_event e = false ->
  chat (handleStreamEvent c e)
    = useChatController.handleStreamEvent (chat c) e /\
  cache_covers_turn (handleStreamEvent c e).
Proof.
  intros Hcov He. unfold cache_covers_turn in *.
  destruct e; try discriminate He;
    cbn [handleStreamEvent useChatController.handleStreamEvent
         with_chat chat currentStepsRef].
  - (* execution_start *) split; [reflexivity|]. exact Hcov.
  - (* agent_action *)
    split; [reflexivity|]. intros n Hn.
    apply numbers_addStep in Hn. cbn [step_number] in Hn.
    destruct Hn as [-> | Hn].
    + rewrite map_get_set_same. discriminate.
    + apply map_get_set_covered. now apply Hcov.
  - (* agent_observation *)
    destruct (map_get step_number0 (currentStepsRef c)) eqn:E;
      cbn [chat currentStepsRef].
    + split; [reflexivity|]. intros n Hn.
      rewrite numbers_updateStep in Hn.
      apply map_get_set_covered. now apply Hcov.
    + split; [|exact Hcov].
      symmetry. apply updateStep_unknown_number.
      intros Hin. now apply Hcov in Hin.
  - (* agent_finish *)
    split; [reflexivity|]. intros n Hn. apply Hcov.
    revert Hn. unfold current_step_numbers, setFinalAnswer. cbn.
    destruct (currentMessage (chat c)) eqn:E; cbn; [tauto | now rewrite E].
  - (* execution_summary *) split; [reflexivity | exact Hcov].
  - (* execution_complete *)
    split; [reflexivity|]. intros n Hn. exfalso. revert Hn.
    unfold current_step_numbers, completeMessage. cbn.
    destruct (currentMessage (chat c)) eqn:E; cbn; [tauto | now rewrite E].
  - (* heartbeat *) split; [reflexivity | exact Hcov].
  - (* unknown *) split; [reflexivity | exact Hcov].
Qed.

(** X24: the two controllers agree away from errors.  From a state whose
    step cache knows the steps of the current turn, any sequence of
    events without an [error] event leaves the controller on the service
    with the chat state the fetch-based controller computes. *)
Theorem controllers_agree_without_error_events :
  forall es c,
    cache_covers_turn c ->
    forallb (fun e => negb (is_error_event e)) es = true ->
    chat (fold_left handleStreamEvent es c) = handleStreamEvents (chat c) es.
Proof.
  induction es as [|e es IH]; intros c Hcov Hes; [reflexivity|].
  cbn in Hes. apply andb_prop in Hes. destruct Hes as [He Hes].
  apply negb_true_iff in He.
  destruct (controllers_agree_step c e Hcov He) as [Hchat Hcov'].
  unfold handleStreamEvents. cbn [fold_left].
  rewrite <- Hchat. now apply IH.
Qed.

Lemma controllers_agree_without_error_events_witness :
  chat (fold_left handleStreamEvent
          [agent_observation "t1" 2 tables_seen;
           agent_action "t2" 1 None list_tables;
           agent_finish "t3" "USA" 1]
          {| currentStepsRef := []; chat := asking_Q1 |})
  = handleStreamEvents asking_Q1
      [agent_observation "t1" 2 tables_seen;
       agent_action "t2" 1 None list_tables;
       agent_finish "t3" "USA" 1].
Proof.
  exact (controllers_agree_without_error_events
           [agent_observation "t1" 2 tables_seen;
            agent_action "t2" 1 None list_tables;
            agent_finish "t3" "USA" 1]
           {| currentStepsRef := []; chat := asking_Q1 |}
           (fun n (H : False) => match H with end) eq_refl).
Defined.

End ControllerFacts.
